(** * A shallow embedding of the heads-up hold'em engine of terminal-poker

    Sources: [src/src/game/deck.rs], [src/src/game/hand.rs],
    [src/src/game/actions.rs] and [src/src/game/state.rs], with the
    callers of [ui/input.rs] and [ui/app.rs] that compute amounts.

    Conventions of the embedding.
    - Chip amounts are Rust [u32]; they are modelled as [N] and every
      arithmetic operation that Rust checks for overflow is written out:
      an addition whose result leaves [0 .. 2^32 - 1], or a subtraction
      that would go below zero, is a panic (the behaviour of a build with
      overflow checks, i.e. the default [cargo build] / [cargo test]
      profile).  The per-street action counter is a [u8] and is treated
      the same way with bound [2^8].
    - Fallible code returns [option]: [None] is a panic ([unwrap] of a
      [None], an out-of-range index, an arithmetic overflow).
    - The [description] string of a [HandEvaluation] is display text
      built from the other two fields; it is not modelled.
    - A Rust [HashMap] used for counting is modelled as an association
      list in insertion order.  Rust iterates a [HashMap] in an
      unspecified order; every use below either finds the unique key
      with a given count or is independent of the order. *)

From Stdlib Require Import List NArith ZArith Arith Bool Lia Permutation.
Import ListNotations.

Notation "'let?' x ':=' e 'in' k" :=
  (match e with Some x => k | None => None end)
  (at level 200, x pattern, e at level 100, k at level 200).

(** ** Cards (deck.rs) *)

Inductive Rank :=
  Two | Three | Four | Five | Six | Seven | Eight | Nine | Ten
| Jack | Queen | King | Ace.

(** The enum discriminants [Two = 2 ... Ace = 14]; the derived [Ord]
    follows them. *)
Definition rank_val (r : Rank) : nat :=
  match r with
  | Two => 2 | Three => 3 | Four => 4 | Five => 5 | Six => 6
  | Seven => 7 | Eight => 8 | Nine => 9 | Ten => 10 | Jack => 11
  | Queen => 12 | King => 13 | Ace => 14
  end.

Definition rank_eqb (a b : Rank) : bool := Nat.eqb (rank_val a) (rank_val b).

Inductive Suit := Spades | Hearts | Diamonds | Clubs.

Definition suit_eqb (a b : Suit) : bool :=
  match a, b with
  | Spades, Spades | Hearts, Hearts | Diamonds, Diamonds | Clubs, Clubs => true
  | _, _ => false
  end.

Record Card := mkCard { rank : Rank; suit : Suit }.

(** ** Hand evaluation (hand.rs) *)

Inductive HandRank :=
  HighCard | Pair | TwoPair | ThreeOfAKind | Straight | Flush
| FullHouse | FourOfAKind | StraightFlush.

Definition hand_rank_val (h : HandRank) : nat :=
  match h with
  | HighCard => 0 | Pair => 1 | TwoPair => 2 | ThreeOfAKind => 3
  | Straight => 4 | Flush => 5 | FullHouse => 6 | FourOfAKind => 7
  | StraightFlush => 8
  end.

Record HandEvaluation := mkEval { he_rank : HandRank; kickers : list Rank }.

Definition rank_cmp (a b : Rank) : comparison :=
  Nat.compare (rank_val a) (rank_val b).

(** [Ord] of [Vec<Rank>]: lexicographic, a proper prefix is smaller. *)
Fixpoint kickers_cmp (a b : list Rank) : comparison :=
  match a, b with
  | [], [] => Eq
  | [], _ :: _ => Lt
  | _ :: _, [] => Gt
  | x :: xs, y :: ys =>
      match rank_cmp x y with
      | Eq => kickers_cmp xs ys
      | c => c
      end
  end.

(** [a.rank.cmp(&b.rank).then_with(|| a.kickers.cmp(&b.kickers))] *)
Definition eval_cmp (a b : HandEvaluation) : comparison :=
  match Nat.compare (hand_rank_val (he_rank a)) (hand_rank_val (he_rank b)) with
  | Eq => kickers_cmp (kickers a) (kickers b)
  | c => c
  end.

(** [*counts.entry(k).or_insert(0) += 1] *)
Fixpoint count_insert {K : Type} (eqb : K -> K -> bool) (k : K)
    (m : list (K * nat)) : list (K * nat) :=
  match m with
  | [] => [(k, 1)]
  | (k', c) :: m' =>
      if eqb k k' then (k', S c) :: m' else (k', c) :: count_insert eqb k m'
  end.

Definition rank_counts (cards : list Card) : list (Rank * nat) :=
  fold_left (fun m c => count_insert rank_eqb (rank c) m) cards [].

Definition suit_counts (cards : list Card) : list (Suit * nat) :=
  fold_left (fun m c => count_insert suit_eqb (suit c) m) cards [].

(** [counts.iter().find(|(_, &c)| c == n).map(|(&r, _)| r)] *)
Fixpoint find_count (n : nat) (m : list (Rank * nat)) : option Rank :=
  match m with
  | [] => None
  | (r, c) :: m' => if Nat.eqb c n then Some r else find_count n m'
  end.

(** [sort_by(|a, b| b.cmp(a))]: descending order.  Ranks that compare
    equal are equal, so every sorting algorithm gives this result. *)
Fixpoint insert_desc (r : Rank) (l : list Rank) : list Rank :=
  match l with
  | [] => [r]
  | x :: xs => if rank_val x <? rank_val r then r :: x :: xs else x :: insert_desc r xs
  end.

Fixpoint sort_desc (l : list Rank) : list Rank :=
  match l with
  | [] => []
  | x :: xs => insert_desc x (sort_desc xs)
  end.

(** [Vec::dedup]: drop consecutive repeats. *)
Fixpoint dedup (l : list Rank) : list Rank :=
  match l with
  | x :: ((y :: _) as t) => if rank_eqb x y then dedup t else x :: dedup t
  | _ => l
  end.

(** The loop over [sorted_ranks.windows(5)] of [check_straight]. *)
Fixpoint straight_window (l : list Rank) : option Rank :=
  match l with
  | a :: ((_ :: _ :: _ :: e :: _) as t) =>
      if (Z.of_nat (rank_val a) - Z.of_nat (rank_val e) =? 4)%Z
      then Some a else straight_window t
  | _ => None
  end.

Definition contains_val (v : nat) (vals : list nat) : bool :=
  existsb (Nat.eqb v) vals.

Definition check_straight (sorted_ranks : list Rank) : option Rank :=
  if length sorted_ranks <? 5 then None
  else
    let values := map rank_val sorted_ranks in
    if contains_val 14 values && contains_val 2 values && contains_val 3 values
       && contains_val 4 values && contains_val 5 values
    then Some Five
    else straight_window sorted_ranks.

(** The loop of [evaluate_partial] over the rank counts: either the early
    return of a four of a kind, or the final [(pairs, trips,
    highest_paired_rank)]. *)
Fixpoint partial_scan (rc : list (Rank * nat)) (pairs : nat) (trips : bool)
    (hpr : option Rank) : HandEvaluation + (nat * bool * option Rank) :=
  match rc with
  | [] => inr (pairs, trips, hpr)
  | (r, c) :: rc' =>
      match c with
      | 2 =>
          let hpr' :=
            match hpr with
            | None => Some r
            | Some h => if rank_val h <? rank_val r then Some r else hpr
            end in
          partial_scan rc' (S pairs) trips hpr'
      | 3 => partial_scan rc' pairs true hpr
      | 4 => inl (mkEval FourOfAKind [r])
      | _ => partial_scan rc' pairs trips hpr
      end
  end.

Definition evaluate_partial (cards : list Card) : option HandEvaluation :=
  match cards with
  | [] => Some (mkEval HighCard [])
  | _ :: _ =>
      let rc := rank_counts cards in
      match partial_scan rc 0 false None with
      | inl ev => Some ev
      | inr (pairs, trips, hpr) =>
          if trips then
            (* [.find(|(_, &c)| c == 3).map(..).unwrap()] *)
            let? t := find_count 3 rc in Some (mkEval ThreeOfAKind [t])
          else if 2 <=? pairs then
            Some (mkEval TwoPair (match hpr with Some h => [h] | None => [] end))
          else if pairs =? 1 then
            let? p := hpr in Some (mkEval Pair [p])
          else
            let ranks := sort_desc (map rank cards) in
            (* [ranks[0]] *)
            match ranks with
            | [] => None
            | _ :: _ => Some (mkEval HighCard ranks)
            end
      end
  end.

(** [evaluate_five], with the straight check it calls as a parameter
    ([evaluate_five] below instantiates it with [check_straight]). *)
Definition evaluate_five_using (check : list Rank -> option Rank) (cards : list Card)
    : option HandEvaluation :=
  let rc := rank_counts cards in
  let sc := suit_counts cards in
  let is_flush := existsb (fun p => 5 <=? snd p) sc in
  let ranks := dedup (sort_desc (map rank cards)) in
  let straight_high := check ranks in
  match (if is_flush then straight_high else None) with
  | Some high => Some (mkEval StraightFlush [high])
  | None =>
  match find_count 4 rc with
  | Some r => Some (mkEval FourOfAKind [r])
  | None =>
  let trips := find_count 3 rc in
  let pair := find_count 2 rc in
  match trips, pair with
  | Some t, Some p => Some (mkEval FullHouse [t; p])
  | _, _ =>
  if is_flush then
    (* [ranks[0]] in the description *)
    match ranks with [] => None | _ :: _ => Some (mkEval Flush ranks) end
  else
  match straight_high with
  | Some high => Some (mkEval Straight [high])
  | None =>
  match trips with
  | Some t => Some (mkEval ThreeOfAKind [t])
  | None =>
  let pairs := map fst (filter (fun p => Nat.eqb (snd p) 2) rc) in
  if 2 <=? length pairs then
    let sorted_pairs := sort_desc pairs in
    (* [sorted_pairs[0]], [sorted_pairs[1]] *)
    match sorted_pairs with
    | _ :: _ :: _ => Some (mkEval TwoPair sorted_pairs)
    | _ => None
    end
  else if length pairs =? 1 then
    match pairs with p :: _ => Some (mkEval Pair [p]) | [] => None end
  else
    (* [cards.iter().map(|c| c.rank).max().unwrap()] in the description *)
    match cards with [] => None | _ :: _ => Some (mkEval HighCard ranks) end
  end end end end end.

Definition evaluate_five (cards : list Card) : option HandEvaluation :=
  evaluate_five_using check_straight cards.

(** [combinations(cards, k)]: the loop over [i] walks the suffixes. *)
Fixpoint combinations (cards : list Card) (k : nat) {struct k} : list (list Card) :=
  match k with
  | 0 => [[]]
  | S k' =>
      if length cards <? k then []
      else
        (fix walk (l : list Card) : list (list Card) :=
           match l with
           | [] => []
           | card :: rest => map (cons card) (combinations rest k') ++ walk rest
           end) cards
  end.

(** [Iterator::max_by]: a [reduce] with [cmp::max_by], which keeps the
    later element unless the earlier one is strictly greater. *)
Definition max_by_step (acc y : HandEvaluation) : HandEvaluation :=
  match eval_cmp acc y with Gt => acc | _ => y end.

Definition max_by_eval (l : list HandEvaluation) : option HandEvaluation :=
  match l with
  | [] => None
  | x :: xs => Some (fold_left max_by_step xs x)
  end.

Fixpoint map_opt {A B : Type} (f : A -> option B) (l : list A) : option (list B) :=
  match l with
  | [] => Some []
  | x :: xs => let? y := f x in let? ys := map_opt f xs in Some (y :: ys)
  end.

Definition evaluate_hand (hole_cards board : list Card) : option HandEvaluation :=
  let all_cards := hole_cards ++ board in
  if length all_cards <? 5 then evaluate_partial all_cards
  else
    let? evals := map_opt evaluate_five (combinations all_cards 5) in
    Some (match max_by_eval evals with
          | Some e => e
          | None => mkEval HighCard []
          end).

Example ex_wheel :
  evaluate_five [mkCard Ace Spades; mkCard Two Hearts; mkCard Three Diamonds;
                 mkCard Four Clubs; mkCard Five Spades]
  = Some (mkEval Straight [Five]).
Proof. reflexivity. Qed.

Example ex_seven :
  evaluate_hand [mkCard Ace Spades; mkCard Ace Hearts]
    [mkCard King Spades; mkCard King Hearts; mkCard Two Clubs;
     mkCard Ace Diamonds; mkCard Nine Spades]
  = Some (mkEval FullHouse [Ace; King]).
Proof. vm_compute. reflexivity. Qed.

(** ** Machine arithmetic *)

Open Scope N_scope.

Definition U32_MAX : N := 2 ^ 32 - 1.

(** [a + b] on [u32]. *)
Definition add_u32 (a b : N) : option N :=
  if a + b <=? U32_MAX then Some (a + b) else None.

(** [a - b] on [u32]. *)
Definition sub_u32 (a b : N) : option N :=
  if b <=? a then Some (a - b) else None.

(** [a * b] on [u32]. *)
Definition mul_u32 (a b : N) : option N :=
  if a * b <=? U32_MAX then Some (a * b) else None.

(** [n += 1] on the [u8] action counter. *)
Definition inc_u8 (n : N) : option N :=
  if n + 1 <=? 255 then Some (n + 1) else None.

(** ** Actions (actions.rs) *)

Inductive Action :=
| Fold
| Check
| Call (amount : N)
| Bet (amount : N)
| Raise (amount : N)
| AllIn (amount : N).

Definition action_eqb (a b : Action) : bool :=
  match a, b with
  | Fold, Fold | Check, Check => true
  | Call x, Call y | Bet x, Bet y | Raise x, Raise y | AllIn x, AllIn y => N.eqb x y
  | _, _ => false
  end.

Record AvailableActions := mkAvailable {
  can_fold : bool;
  can_check : bool;
  can_call : option N;
  min_bet : option N;
  min_raise : option N;
  max_raise : N
}.

(** [AvailableActions::new] *)
Definition AvailableActions_new (to_call min_raise_to player_stack big_blind : N)
    : AvailableActions :=
  let can_check := N.eqb to_call 0 in
  {| can_fold := 0 <? to_call;
     can_check := can_check;
     can_call := if (0 <? to_call) && (to_call <? player_stack) then Some to_call else None;
     min_bet := if can_check && (0 <? player_stack)
                then Some (N.min big_blind player_stack) else None;
     min_raise := if (0 <? to_call) && (min_raise_to <? player_stack)
                  then Some min_raise_to else None;
     max_raise := player_stack |}.

(** ** Deck (deck.rs) *)

Record Deck := mkDeck { deck_cards : list Card; deck_index : nat }.

Definition deal (d : Deck) : option Card * Deck :=
  match nth_error (deck_cards d) (deck_index d) with
  | Some c => (Some c, mkDeck (deck_cards d) (S (deck_index d)))
  | None => (None, d)
  end.

(** [(0..n).filter_map(|_| self.deal()).collect()] *)
Fixpoint deal_n (d : Deck) (n : nat) : list Card * Deck :=
  match n with
  | O => ([], d)
  | S n' =>
      let (oc, d1) := deal d in
      let (cs, d2) := deal_n d1 n' in
      (match oc with Some c => c :: cs | None => cs end, d2)
  end.

(** [Deck::shuffle] permutes the cards with a thread-local random
    generator and rewinds the index.  The permutation it draws is an input
    of the embedding: [shuffled] is the card order it produced. *)
Definition shuffle (d : Deck) (shuffled : list Card) : Deck := mkDeck shuffled 0.

(** ** Game state (state.rs) *)

Definition BIG_BLIND : N := 2.
Definition SMALL_BLIND : N := 1.

Inductive Player := Human | Bot.

Definition opponent (p : Player) : Player :=
  match p with Human => Bot | Bot => Human end.

Definition player_eqb (a b : Player) : bool :=
  match a, b with Human, Human | Bot, Bot => true | _, _ => false end.

Inductive GamePhase :=
  Preflop | Flop | Turn | River | Showdown | HandComplete | SessionEnd | Summary.

Definition phase_eqb (a b : GamePhase) : bool :=
  match a, b with
  | Preflop, Preflop | Flop, Flop | Turn, Turn | River, River
  | Showdown, Showdown | HandComplete, HandComplete
  | SessionEnd, SessionEnd | Summary, Summary => true
  | _, _ => false
  end.

Record ShowdownResult := mkShowdown {
  winner : option Player;
  player_hand : HandEvaluation;
  bot_hand : HandEvaluation;
  pot_won : N
}.

Record GameState := mkState {
  phase : GamePhase;
  deck : Deck;
  player_cards : list Card;
  bot_cards : list Card;
  board : list Card;
  pot : N;
  player_stack : N;
  bot_stack : N;
  player_bet : N;
  bot_bet : N;
  to_act : Player;
  button : Player;
  last_aggressor : option Player;
  last_raise_size : N;
  hand_number : N;
  starting_stack : N;
  hands_played : N;
  hands_won : N;
  biggest_pot_won : N;
  biggest_pot_lost : N;
  last_action : option (Player * Action);
  showdown_result : option ShowdownResult;
  actions_this_street : N
}.

(** Field assignments [self.f = v]. *)
Definition set_phase (s : GameState) (v : GamePhase) : GameState :=
  {| phase := v; deck := deck s; player_cards := player_cards s; bot_cards := bot_cards s; board := board s; pot := pot s; player_stack := player_stack s; bot_stack := bot_stack s; player_bet := player_bet s; bot_bet := bot_bet s; to_act := to_act s; button := button s; last_aggressor := last_aggressor s; last_raise_size := last_raise_size s; hand_number := hand_number s; starting_stack := starting_stack s; hands_played := hands_played s; hands_won := hands_won s; biggest_pot_won := biggest_pot_won s; biggest_pot_lost := biggest_pot_lost s; last_action := last_action s; showdown_result := showdown_result s; actions_this_street := actions_this_street s |}.
Definition set_deck (s : GameState) (v : Deck) : GameState :=
  {| phase := phase s; deck := v; player_cards := player_cards s; bot_cards := bot_cards s; board := board s; pot := pot s; player_stack := player_stack s; bot_stack := bot_stack s; player_bet := player_bet s; bot_bet := bot_bet s; to_act := to_act s; button := button s; last_aggressor := last_aggressor s; last_raise_size := last_raise_size s; hand_number := hand_number s; starting_stack := starting_stack s; hands_played := hands_played s; hands_won := hands_won s; biggest_pot_won := biggest_pot_won s; biggest_pot_lost := biggest_pot_lost s; last_action := last_action s; showdown_result := showdown_result s; actions_this_street := actions_this_street s |}.
Definition set_player_cards (s : GameState) (v : list Card) : GameState :=
  {| phase := phase s; deck := deck s; player_cards := v; bot_cards := bot_cards s; board := board s; pot := pot s; player_stack := player_stack s; bot_stack := bot_stack s; player_bet := player_bet s; bot_bet := bot_bet s; to_act := to_act s; button := button s; last_aggressor := last_aggressor s; last_raise_size := last_raise_size s; hand_number := hand_number s; starting_stack := starting_stack s; hands_played := hands_played s; hands_won := hands_won s; biggest_pot_won := biggest_pot_won s; biggest_pot_lost := biggest_pot_lost s; last_action := last_action s; showdown_result := showdown_result s; actions_this_street := actions_this_street s |}.
Definition set_bot_cards (s : GameState) (v : list Card) : GameState :=
  {| phase := phase s; deck := deck s; player_cards := player_cards s; bot_cards := v; board := board s; pot := pot s; player_stack := player_stack s; bot_stack := bot_stack s; player_bet := player_bet s; bot_bet := bot_bet s; to_act := to_act s; button := button s; last_aggressor := last_aggressor s; last_raise_size := last_raise_size s; hand_number := hand_number s; starting_stack := starting_stack s; hands_played := hands_played s; hands_won := hands_won s; biggest_pot_won := biggest_pot_won s; biggest_pot_lost := biggest_pot_lost s; last_action := last_action s; showdown_result := showdown_result s; actions_this_street := actions_this_street s |}.
Definition set_board (s : GameState) (v : list Card) : GameState :=
  {| phase := phase s; deck := deck s; player_cards := player_cards s; bot_cards := bot_cards s; board := v; pot := pot s; player_stack := player_stack s; bot_stack := bot_stack s; player_bet := player_bet s; bot_bet := bot_bet s; to_act := to_act s; button := button s; last_aggressor := last_aggressor s; last_raise_size := last_raise_size s; hand_number := hand_number s; starting_stack := starting_stack s; hands_played := hands_played s; hands_won := hands_won s; biggest_pot_won := biggest_pot_won s; biggest_pot_lost := biggest_pot_lost s; last_action := last_action s; showdown_result := showdown_result s; actions_this_street := actions_this_street s |}.
Definition set_pot (s : GameState) (v : N) : GameState :=
  {| phase := phase s; deck := deck s; player_cards := player_cards s; bot_cards := bot_cards s; board := board s; pot := v; player_stack := player_stack s; bot_stack := bot_stack s; player_bet := player_bet s; bot_bet := bot_bet s; to_act := to_act s; button := button s; last_aggressor := last_aggressor s; last_raise_size := last_raise_size s; hand_number := hand_number s; starting_stack := starting_stack s; hands_played := hands_played s; hands_won := hands_won s; biggest_pot_won := biggest_pot_won s; biggest_pot_lost := biggest_pot_lost s; last_action := last_action s; showdown_result := showdown_result s; actions_this_street := actions_this_street s |}.
Definition set_player_stack (s : GameState) (v : N) : GameState :=
  {| phase := phase s; deck := deck s; player_cards := player_cards s; bot_cards := bot_cards s; board := board s; pot := pot s; player_stack := v; bot_stack := bot_stack s; player_bet := player_bet s; bot_bet := bot_bet s; to_act := to_act s; button := button s; last_aggressor := last_aggressor s; last_raise_size := last_raise_size s; hand_number := hand_number s; starting_stack := starting_stack s; hands_played := hands_played s; hands_won := hands_won s; biggest_pot_won := biggest_pot_won s; biggest_pot_lost := biggest_pot_lost s; last_action := last_action s; showdown_result := showdown_result s; actions_this_street := actions_this_street s |}.
Definition set_bot_stack (s : GameState) (v : N) : GameState :=
  {| phase := phase s; deck := deck s; player_cards := player_cards s; bot_cards := bot_cards s; board := board s; pot := pot s; player_stack := player_stack s; bot_stack := v; player_bet := player_bet s; bot_bet := bot_bet s; to_act := to_act s; button := button s; last_aggressor := last_aggressor s; last_raise_size := last_raise_size s; hand_number := hand_number s; starting_stack := starting_stack s; hands_played := hands_played s; hands_won := hands_won s; biggest_pot_won := biggest_pot_won s; biggest_pot_lost := biggest_pot_lost s; last_action := last_action s; showdown_result := showdown_result s; actions_this_street := actions_this_street s |}.
Definition set_player_bet (s : GameState) (v : N) : GameState :=
  {| phase := phase s; deck := deck s; player_cards := player_cards s; bot_cards := bot_cards s; board := board s; pot := pot s; player_stack := player_stack s; bot_stack := bot_stack s; player_bet := v; bot_bet := bot_bet s; to_act := to_act s; button := button s; last_aggressor := last_aggressor s; last_raise_size := last_raise_size s; hand_number := hand_number s; starting_stack := starting_stack s; hands_played := hands_played s; hands_won := hands_won s; biggest_pot_won := biggest_pot_won s; biggest_pot_lost := biggest_pot_lost s; last_action := last_action s; showdown_result := showdown_result s; actions_this_street := actions_this_street s |}.
Definition set_bot_bet (s : GameState) (v : N) : GameState :=
  {| phase := phase s; deck := deck s; player_cards := player_cards s; bot_cards := bot_cards s; board := board s; pot := pot s; player_stack := player_stack s; bot_stack := bot_stack s; player_bet := player_bet s; bot_bet := v; to_act := to_act s; button := button s; last_aggressor := last_aggressor s; last_raise_size := last_raise_size s; hand_number := hand_number s; starting_stack := starting_stack s; hands_played := hands_played s; hands_won := hands_won s; biggest_pot_won := biggest_pot_won s; biggest_pot_lost := biggest_pot_lost s; last_action := last_action s; showdown_result := showdown_result s; actions_this_street := actions_this_street s |}.
Definition set_to_act (s : GameState) (v : Player) : GameState :=
  {| phase := phase s; deck := deck s; player_cards := player_cards s; bot_cards := bot_cards s; board := board s; pot := pot s; player_stack := player_stack s; bot_stack := bot_stack s; player_bet := player_bet s; bot_bet := bot_bet s; to_act := v; button := button s; last_aggressor := last_aggressor s; last_raise_size := last_raise_size s; hand_number := hand_number s; starting_stack := starting_stack s; hands_played := hands_played s; hands_won := hands_won s; biggest_pot_won := biggest_pot_won s; biggest_pot_lost := biggest_pot_lost s; last_action := last_action s; showdown_result := showdown_result s; actions_this_street := actions_this_street s |}.
Definition set_button (s : GameState) (v : Player) : GameState :=
  {| phase := phase s; deck := deck s; player_cards := player_cards s; bot_cards := bot_cards s; board := board s; pot := pot s; player_stack := player_stack s; bot_stack := bot_stack s; player_bet := player_bet s; bot_bet := bot_bet s; to_act := to_act s; button := v; last_aggressor := last_aggressor s; last_raise_size := last_raise_size s; hand_number := hand_number s; starting_stack := starting_stack s; hands_played := hands_played s; hands_won := hands_won s; biggest_pot_won := biggest_pot_won s; biggest_pot_lost := biggest_pot_lost s; last_action := last_action s; showdown_result := showdown_result s; actions_this_street := actions_this_street s |}.
Definition set_last_aggressor (s : GameState) (v : option Player) : GameState :=
  {| phase := phase s; deck := deck s; player_cards := player_cards s; bot_cards := bot_cards s; board := board s; pot := pot s; player_stack := player_stack s; bot_stack := bot_stack s; player_bet := player_bet s; bot_bet := bot_bet s; to_act := to_act s; button := button s; last_aggressor := v; last_raise_size := last_raise_size s; hand_number := hand_number s; starting_stack := starting_stack s; hands_played := hands_played s; hands_won := hands_won s; biggest_pot_won := biggest_pot_won s; biggest_pot_lost := biggest_pot_lost s; last_action := last_action s; showdown_result := showdown_result s; actions_this_street := actions_this_street s |}.
Definition set_last_raise_size (s : GameState) (v : N) : GameState :=
  {| phase := phase s; deck := deck s; player_cards := player_cards s; bot_cards := bot_cards s; board := board s; pot := pot s; player_stack := player_stack s; bot_stack := bot_stack s; player_bet := player_bet s; bot_bet := bot_bet s; to_act := to_act s; button := button s; last_aggressor := last_aggressor s; last_raise_size := v; hand_number := hand_number s; starting_stack := starting_stack s; hands_played := hands_played s; hands_won := hands_won s; biggest_pot_won := biggest_pot_won s; biggest_pot_lost := biggest_pot_lost s; last_action := last_action s; showdown_result := showdown_result s; actions_this_street := actions_this_street s |}.
Definition set_hand_number (s : GameState) (v : N) : GameState :=
  {| phase := phase s; deck := deck s; player_cards := player_cards s; bot_cards := bot_cards s; board := board s; pot := pot s; player_stack := player_stack s; bot_stack := bot_stack s; player_bet := player_bet s; bot_bet := bot_bet s; to_act := to_act s; button := button s; last_aggressor := last_aggressor s; last_raise_size := last_raise_size s; hand_number := v; starting_stack := starting_stack s; hands_played := hands_played s; hands_won := hands_won s; biggest_pot_won := biggest_pot_won s; biggest_pot_lost := biggest_pot_lost s; last_action := last_action s; showdown_result := showdown_result s; actions_this_street := actions_this_street s |}.
Definition set_starting_stack (s : GameState) (v : N) : GameState :=
  {| phase := phase s; deck := deck s; player_cards := player_cards s; bot_cards := bot_cards s; board := board s; pot := pot s; player_stack := player_stack s; bot_stack := bot_stack s; player_bet := player_bet s; bot_bet := bot_bet s; to_act := to_act s; button := button s; last_aggressor := last_aggressor s; last_raise_size := last_raise_size s; hand_number := hand_number s; starting_stack := v; hands_played := hands_played s; hands_won := hands_won s; biggest_pot_won := biggest_pot_won s; biggest_pot_lost := biggest_pot_lost s; last_action := last_action s; showdown_result := showdown_result s; actions_this_street := actions_this_street s |}.
Definition set_hands_played (s : GameState) (v : N) : GameState :=
  {| phase := phase s; deck := deck s; player_cards := player_cards s; bot_cards := bot_cards s; board := board s; pot := pot s; player_stack := player_stack s; bot_stack := bot_stack s; player_bet := player_bet s; bot_bet := bot_bet s; to_act := to_act s; button := button s; last_aggressor := last_aggressor s; last_raise_size := last_raise_size s; hand_number := hand_number s; starting_stack := starting_stack s; hands_played := v; hands_won := hands_won s; biggest_pot_won := biggest_pot_won s; biggest_pot_lost := biggest_pot_lost s; last_action := last_action s; showdown_result := showdown_result s; actions_this_street := actions_this_street s |}.
Definition set_hands_won (s : GameState) (v : N) : GameState :=
  {| phase := phase s; deck := deck s; player_cards := player_cards s; bot_cards := bot_cards s; board := board s; pot := pot s; player_stack := player_stack s; bot_stack := bot_stack s; player_bet := player_bet s; bot_bet := bot_bet s; to_act := to_act s; button := button s; last_aggressor := last_aggressor s; last_raise_size := last_raise_size s; hand_number := hand_number s; starting_stack := starting_stack s; hands_played := hands_played s; hands_won := v; biggest_pot_won := biggest_pot_won s; biggest_pot_lost := biggest_pot_lost s; last_action := last_action s; showdown_result := showdown_result s; actions_this_street := actions_this_street s |}.
Definition set_biggest_pot_won (s : GameState) (v : N) : GameState :=
  {| phase := phase s; deck := deck s; player_cards := player_cards s; bot_cards := bot_cards s; board := board s; pot := pot s; player_stack := player_stack s; bot_stack := bot_stack s; player_bet := player_bet s; bot_bet := bot_bet s; to_act := to_act s; button := button s; last_aggressor := last_aggressor s; last_raise_size := last_raise_size s; hand_number := hand_number s; starting_stack := starting_stack s; hands_played := hands_played s; hands_won := hands_won s; biggest_pot_won := v; biggest_pot_lost := biggest_pot_lost s; last_action := last_action s; showdown_result := showdown_result s; actions_this_street := actions_this_street s |}.
Definition set_biggest_pot_lost (s : GameState) (v : N) : GameState :=
  {| phase := phase s; deck := deck s; player_cards := player_cards s; bot_cards := bot_cards s; board := board s; pot := pot s; player_stack := player_stack s; bot_stack := bot_stack s; player_bet := player_bet s; bot_bet := bot_bet s; to_act := to_act s; button := button s; last_aggressor := last_aggressor s; last_raise_size := last_raise_size s; hand_number := hand_number s; starting_stack := starting_stack s; hands_played := hands_played s; hands_won := hands_won s; biggest_pot_won := biggest_pot_won s; biggest_pot_lost := v; last_action := last_action s; showdown_result := showdown_result s; actions_this_street := actions_this_street s |}.
Definition set_last_action (s : GameState) (v : option (Player * Action)) : GameState :=
  {| phase := phase s; deck := deck s; player_cards := player_cards s; bot_cards := bot_cards s; board := board s; pot := pot s; player_stack := player_stack s; bot_stack := bot_stack s; player_bet := player_bet s; bot_bet := bot_bet s; to_act := to_act s; button := button s; last_aggressor := last_aggressor s; last_raise_size := last_raise_size s; hand_number := hand_number s; starting_stack := starting_stack s; hands_played := hands_played s; hands_won := hands_won s; biggest_pot_won := biggest_pot_won s; biggest_pot_lost := biggest_pot_lost s; last_action := v; showdown_result := showdown_result s; actions_this_street := actions_this_street s |}.
Definition set_showdown_result (s : GameState) (v : option ShowdownResult) : GameState :=
  {| phase := phase s; deck := deck s; player_cards := player_cards s; bot_cards := bot_cards s; board := board s; pot := pot s; player_stack := player_stack s; bot_stack := bot_stack s; player_bet := player_bet s; bot_bet := bot_bet s; to_act := to_act s; button := button s; last_aggressor := last_aggressor s; last_raise_size := last_raise_size s; hand_number := hand_number s; starting_stack := starting_stack s; hands_played := hands_played s; hands_won := hands_won s; biggest_pot_won := biggest_pot_won s; biggest_pot_lost := biggest_pot_lost s; last_action := last_action s; showdown_result := v; actions_this_street := actions_this_street s |}.
Definition set_actions_this_street (s : GameState) (v : N) : GameState :=
  {| phase := phase s; deck := deck s; player_cards := player_cards s; bot_cards := bot_cards s; board := board s; pot := pot s; player_stack := player_stack s; bot_stack := bot_stack s; player_bet := player_bet s; bot_bet := bot_bet s; to_act := to_act s; button := button s; last_aggressor := last_aggressor s; last_raise_size := last_raise_size s; hand_number := hand_number s; starting_stack := starting_stack s; hands_played := hands_played s; hands_won := hands_won s; biggest_pot_won := biggest_pot_won s; biggest_pot_lost := biggest_pot_lost s; last_action := last_action s; showdown_result := showdown_result s; actions_this_street := v |}.

(** [GameState::current_bet] *)
Definition current_bet (s : GameState) (p : Player) : N :=
  match p with Human => player_bet s | Bot => bot_bet s end.

(** The stack of a player, as the [match player] arms of the source read it. *)
Definition stack_of (s : GameState) (p : Player) : N :=
  match p with Human => player_stack s | Bot => bot_stack s end.

(** [GameState::max_bet] *)
Definition max_bet (s : GameState) : N := N.max (player_bet s) (bot_bet s).

(** [GameState::start_new_hand]; [shuffled] is the card order drawn by
    [self.deck.shuffle()]. *)
Definition start_new_hand (s : GameState) (shuffled : list Card) : option GameState :=
  let? hn := add_u32 (hand_number s) 1 in
  let s := set_hand_number s hn in
  let s := set_button s (opponent (button s)) in
  let s := set_phase s Preflop in
  let d := shuffle (deck s) shuffled in
  let (pc, d) := deal_n d 2%nat in
  let (bc, d) := deal_n d 2%nat in
  let s := set_deck (set_bot_cards (set_player_cards s pc) bc) d in
  let s := set_board s [] in
  let s := set_pot s 0 in
  let s := set_player_bet s 0 in
  let s := set_bot_bet s 0 in
  let s := set_last_aggressor s None in
  let s := set_last_raise_size s BIG_BLIND in
  let s := set_last_action s None in
  let s := set_showdown_result s None in
  let s := set_actions_this_street s 0 in
  match button s with
  | Human =>
      let sb := N.min SMALL_BLIND (player_stack s) in
      let bb := N.min BIG_BLIND (bot_stack s) in
      let? ps := sub_u32 (player_stack s) sb in
      let s := set_player_bet (set_player_stack s ps) sb in
      let? bs := sub_u32 (bot_stack s) bb in
      let s := set_bot_bet (set_bot_stack s bs) bb in
      let? p := add_u32 sb bb in
      Some (set_to_act (set_pot s p) Human)
  | Bot =>
      let sb := N.min SMALL_BLIND (bot_stack s) in
      let bb := N.min BIG_BLIND (player_stack s) in
      let? bs := sub_u32 (bot_stack s) sb in
      let s := set_bot_bet (set_bot_stack s bs) sb in
      let? ps := sub_u32 (player_stack s) bb in
      let s := set_player_bet (set_player_stack s ps) bb in
      let? p := add_u32 sb bb in
      Some (set_to_act (set_pot s p) Bot)
  end.

(** The [Self { .. }] literal of [GameState::new]. *)
Definition GameState_init (starting_stack : N) : GameState :=
  {| phase := Preflop; deck := mkDeck [] 0; player_cards := [];
     bot_cards := []; board := []; pot := 0; player_stack := starting_stack;
     bot_stack := starting_stack; player_bet := 0; bot_bet := 0;
     to_act := Human; button := Bot; last_aggressor := None;
     last_raise_size := BIG_BLIND; hand_number := 0;
     starting_stack := starting_stack; hands_played := 0; hands_won := 0;
     biggest_pot_won := 0; biggest_pot_lost := 0; last_action := None;
     showdown_result := None; actions_this_street := 0 |}.

(** [GameState::new]; the fresh [Deck::new()] is replaced by the shuffled
    one in [start_new_hand], so its order plays no role. *)
Definition GameState_new (starting_stack_bb : N) (shuffled : list Card)
    : option GameState :=
  let? starting_stack := mul_u32 starting_stack_bb BIG_BLIND in
  start_new_hand (GameState_init starting_stack) shuffled.

(** [GameState::add_chips] *)
Definition add_chips (s : GameState) (p : Player) (amount : N) : option GameState :=
  match p with
  | Human =>
      let actual := N.min amount (player_stack s) in
      let? st := sub_u32 (player_stack s) actual in
      let? b := add_u32 (player_bet s) actual in
      let? pt := add_u32 (pot s) actual in
      Some (set_pot (set_player_bet (set_player_stack s st) b) pt)
  | Bot =>
      let actual := N.min amount (bot_stack s) in
      let? st := sub_u32 (bot_stack s) actual in
      let? b := add_u32 (bot_bet s) actual in
      let? pt := add_u32 (pot s) actual in
      Some (set_pot (set_bot_bet (set_bot_stack s st) b) pt)
  end.

(** [GameState::handle_fold] *)
Definition handle_fold (s : GameState) (folder : Player) : option GameState :=
  let pot0 := pot s in
  let? s :=
    match opponent folder with
    | Human =>
        let? st := add_u32 (player_stack s) pot0 in
        let? hw := add_u32 (hands_won s) 1 in
        let s := set_hands_won (set_player_stack s st) hw in
        Some (if biggest_pot_won s <? pot0 then set_biggest_pot_won s pot0 else s)
    | Bot =>
        let? st := add_u32 (bot_stack s) pot0 in
        let s := set_bot_stack s st in
        Some (if biggest_pot_lost s <? pot0 then set_biggest_pot_lost s pot0 else s)
    end in
  let s := set_pot s 0 in
  let? hp := add_u32 (hands_played s) 1 in
  Some (set_phase (set_hands_played s hp) HandComplete).

(** [Option::is_none] *)
Definition is_none {A : Type} (o : option A) : bool :=
  match o with None => true | Some _ => false end.

(** [GameState::is_betting_round_complete] *)
Definition is_betting_round_complete (s : GameState) : bool :=
  if N.eqb (player_stack s) 0 || N.eqb (bot_stack s) 0 then
    N.eqb (player_bet s) (bot_bet s)
  else if negb (N.eqb (player_bet s) (bot_bet s)) then false
  else if phase_eqb (phase s) Preflop && is_none (last_aggressor s) then
    let bb_player := opponent (button s) in
    match last_action s with
    | Some (actor, action) => player_eqb actor bb_player && action_eqb action Check
    | None => false
    end
  else if is_none (last_aggressor s) then 2 <=? actions_this_street s
  else true.

(** [GameState::resolve_showdown] *)
Definition resolve_showdown (s : GameState) : option GameState :=
  let? player_eval := evaluate_hand (player_cards s) (board s) in
  let? bot_eval := evaluate_hand (bot_cards s) (board s) in
  let w :=
    match Nat.compare (hand_rank_val (he_rank player_eval))
                      (hand_rank_val (he_rank bot_eval)) with
    | Gt => Some Human
    | Lt => Some Bot
    | Eq =>
        match kickers_cmp (kickers player_eval) (kickers bot_eval) with
        | Gt => Some Human
        | Lt => Some Bot
        | Eq => None
        end
    end in
  let pot0 := pot s in
  let? s :=
    match w with
    | Some Human =>
        let? st := add_u32 (player_stack s) pot0 in
        let? hw := add_u32 (hands_won s) 1 in
        let s := set_hands_won (set_player_stack s st) hw in
        Some (if biggest_pot_won s <? pot0 then set_biggest_pot_won s pot0 else s)
    | Some Bot =>
        let? st := add_u32 (bot_stack s) pot0 in
        let s := set_bot_stack s st in
        Some (if biggest_pot_lost s <? pot0 then set_biggest_pot_lost s pot0 else s)
    | None =>
        let half := pot0 / 2 in
        let remainder := pot0 mod 2 in
        if player_eqb (button s) Human then
          let? ps := add_u32 (player_stack s) half in
          let? hr := add_u32 half remainder in
          let? bs := add_u32 (bot_stack s) hr in
          Some (set_bot_stack (set_player_stack s ps) bs)
        else
          let? hr := add_u32 half remainder in
          let? ps := add_u32 (player_stack s) hr in
          let? bs := add_u32 (bot_stack s) half in
          Some (set_bot_stack (set_player_stack s ps) bs)
    end in
  let s := set_showdown_result s
             (Some {| winner := w; player_hand := player_eval;
                      bot_hand := bot_eval; pot_won := pot0 |}) in
  let s := set_pot s 0 in
  let? hp := add_u32 (hands_played s) 1 in
  Some (set_phase (set_hands_played s hp) Showdown).

(** [GameState::advance_phase] *)
Definition advance_phase (s : GameState) : option GameState :=
  let s := set_player_bet s 0 in
  let s := set_bot_bet s 0 in
  let s := set_last_aggressor s None in
  let s := set_actions_this_street s 0 in
  let deal_street (n : nat) (next : GamePhase) : option GameState :=
    let (cs, d) := deal_n (deck s) n in
    let s := set_phase (set_board (set_deck s d) (board s ++ cs)) next in
    Some (set_to_act s (opponent (button s))) in
  match phase s with
  | Preflop => deal_street 3%nat Flop
  | Flop => deal_street 1%nat Turn
  | Turn => deal_street 1%nat River
  | River => resolve_showdown s
  | _ => Some s
  end.

(** The shared arm of [Action::Bet(amount) | Action::Raise(amount)]. *)
Definition apply_bet_or_raise (s : GameState) (player : Player) (amount : N)
    : option GameState :=
  let cb := current_bet s player in
  let? to_add := sub_u32 amount cb in
  let old_max := max_bet s in
  let? s := add_chips s player to_add in
  let s := set_last_aggressor s (Some player) in
  let? lrs := sub_u32 amount old_max in
  Some (set_last_raise_size s lrs).

(** The arm of [Action::AllIn(amount)]. *)
Definition apply_all_in (s : GameState) (player : Player) (amount : N)
    : option GameState :=
  let cb := current_bet s player in
  let? to_add := sub_u32 amount cb in
  let old_max := max_bet s in
  let? s := add_chips s player to_add in
  if old_max <? amount then
    let s := set_last_aggressor s (Some player) in
    let? lrs := sub_u32 amount old_max in
    Some (set_last_raise_size s lrs)
  else Some s.

(** The tail of [apply_action] after a non-fold action. *)
Definition finish_action (s : GameState) (player : Player) : option GameState :=
  if is_betting_round_complete s then advance_phase s
  else Some (set_to_act s (opponent player)).

(** The first two statements of [apply_action]:
    [self.last_action = Some((player, action)); self.actions_this_street += 1]. *)
Definition record_action (s : GameState) (player : Player) (action : Action)
    : option GameState :=
  let s := set_last_action s (Some (player, action)) in
  let? n := inc_u8 (actions_this_street s) in
  Some (set_actions_this_street s n).

(** The non-fold arms of the [match action] of [apply_action]. *)
Definition street_effect (s : GameState) (player : Player) (action : Action)
    : option GameState :=
  match action with
  | Fold | Check => Some s
  | Call amount => add_chips s player amount
  | Bet amount | Raise amount => apply_bet_or_raise s player amount
  | AllIn amount => apply_all_in s player amount
  end.

(** [GameState::apply_action]: the [Fold] arm returns early, the other
    arms fall through to the round-completion check. *)
Definition apply_action (s : GameState) (player : Player) (action : Action)
    : option GameState :=
  let? s := record_action s player action in
  match action with
  | Fold => handle_fold s player
  | _ => let? s := street_effect s player action in finish_action s player
  end.

(** [GameState::amount_to_call] *)
Definition amount_to_call (s : GameState) (p : Player) : N :=
  let current := current_bet s p in
  let mx := max_bet s in
  if current <? mx then mx - current else 0.

(** The floor [self.max_bet() + self.last_raise_size.max(BIG_BLIND)]. *)
Definition min_raise_to (s : GameState) : option N :=
  add_u32 (max_bet s) (N.max (last_raise_size s) BIG_BLIND).

(** [GameState::available_actions] *)
Definition available_actions (s : GameState) : option AvailableActions :=
  let stack := match to_act s with Human => player_stack s | Bot => bot_stack s end in
  let to_call := amount_to_call s (to_act s) in
  let? mrt := min_raise_to s in
  Some (AvailableActions_new to_call mrt stack BIG_BLIND).

(** [Rank::ALL] and the card order of [Deck::new()]. *)
Definition Rank_ALL : list Rank :=
  [Two; Three; Four; Five; Six; Seven; Eight; Nine; Ten; Jack; Queen; King; Ace].

Definition Deck_new_cards : list Card :=
  flat_map (fun st => map (fun r => mkCard r st) Rank_ALL) [Spades; Hearts; Diamonds; Clubs].

(** ** Session-level driver (ui/app.rs, main.rs)

    The application applies actions only while a hand is on a betting
    street, starts a new hand only from [HandComplete] or [Showdown]
    (the [StartNewHand] event), and may set the phase to [SessionEnd]. *)

Definition is_street (ph : GamePhase) : bool :=
  match ph with Preflop | Flop | Turn | River => true | _ => false end.

Inductive session_step : GameState -> GameState -> Prop :=
| step_action s p a s' :
    is_street (phase s) = true -> apply_action s p a = Some s' -> session_step s s'
| step_new_hand s shuffled s' :
    (phase s = HandComplete \/ phase s = Showdown) ->
    start_new_hand s shuffled = Some s' -> session_step s s'
| step_session_end s : session_step s (set_phase s SessionEnd).

Inductive reachable (s0 : GameState) : GameState -> Prop :=
| reach_here : reachable s0 s0
| reach_step s s' : reachable s0 s -> session_step s s' -> reachable s0 s'.

(** Chips in play: [player_stack + bot_stack + pot]. *)
Definition chips (s : GameState) : N := player_stack s + bot_stack s + pot s.

(** Sessions whose every shuffle is a permutation of the cards of
    [Deck::new()], which is what [self.deck = Deck::new();
    self.deck.shuffle()] draws in [start_new_hand]. *)
Inductive fair_step : GameState -> GameState -> Prop :=
| fair_action s p a s' :
    is_street (phase s) = true -> apply_action s p a = Some s' -> fair_step s s'
| fair_new_hand s shuffled s' :
    (phase s = HandComplete \/ phase s = Showdown) ->
    Permutation shuffled Deck_new_cards ->
    start_new_hand s shuffled = Some s' -> fair_step s s'
| fair_session_end s : fair_step s (set_phase s SessionEnd).

Inductive fair_reachable (s0 : GameState) : GameState -> Prop :=
| fair_here : fair_reachable s0 s0
| fair_more s s' : fair_reachable s0 s -> fair_step s s' -> fair_reachable s0 s'.

(** ** Callers in the user interface (ui/input.rs, ui/app.rs) *)

(** [GameState::is_player_turn] *)
Definition is_player_turn (s : GameState) : bool :=
  player_eqb (to_act s) Human
  && negb (match phase s with
           | Showdown | HandComplete | SessionEnd | Summary => true
           | _ => false
           end).

(** [available.min_raise.unwrap_or(available.min_bet.unwrap_or(2))] *)
Definition raise_floor (available : AvailableActions) : N :=
  match min_raise available with
  | Some r => r
  | None => match min_bet available with Some b => b | None => 2 end
  end.

(** The body of the ['r'] and [Enter] arms of [handle_key] once
    [raise_input.parse::<u32>()] has produced [amount]; [to_call] is
    [game_state.amount_to_call(Player::Human)].  The block always
    returns an action: [None] here is an arithmetic panic. *)
Definition submit_raise (amount : N) (available : AvailableActions)
    (player_bet stack to_call : N) : option Action :=
  let min_raise := raise_floor available in
  let? max_bet := add_u32 player_bet stack in
  let actual := N.min (N.max amount min_raise) max_bet in
  if max_bet <=? actual then Some (AllIn max_bet)
  else if 0 <? to_call then Some (Raise actual)
  else Some (Bet actual).

(** [pot_sized_action]; it always returns [Some(..)], so [None] here is
    an arithmetic panic. *)
Definition pot_sized_action (raise_size : N) (available : AvailableActions)
    (player_bet stack to_call : N) : option Action :=
  let min_raise := raise_floor available in
  let? max_bet := add_u32 player_bet stack in
  let? current_max_bet := add_u32 player_bet to_call in
  let? target := add_u32 current_max_bet raise_size in
  let raise_to := N.min (N.max target min_raise) max_bet in
  if max_bet <=? raise_to then Some (AllIn max_bet)
  else match can_call available with
       | Some _ => Some (Raise raise_to)
       | None => Some (Bet raise_to)
       end.

(** [App::projected_bet]; [None] is the panic of [amount - current]. *)
Definition projected_bet (s : GameState) (player : Player) (action : Action) : option N :=
  let current := current_bet s player in
  let stack := stack_of s player in
  match action with
  | Fold | Check => Some current
  | Call amount => add_u32 current (N.min amount stack)
  | Bet amount | Raise amount =>
      let? to_add := sub_u32 amount current in add_u32 current (N.min to_add stack)
  | AllIn amount =>
      let? to_add := sub_u32 amount current in add_u32 current (N.min to_add stack)
  end.

(** ** Concrete inputs and auxiliary definitions of the proofs *)

Definition session_inv (total : N) (s : GameState) : Prop :=
  chips s = total /\ 2 * starting_stack s = total
  /\ ((phase s = HandComplete \/ phase s = Showdown) -> pot s = 0).

(** A run of actions, each applied while the hand is on a betting street. *)
Fixpoint run_streets (s : GameState) (l : list (Player * Action)) : option GameState :=
  match l with
  | [] => Some s
  | (p, a) :: l' =>
      if is_street (phase s) then let? s' := apply_action s p a in run_streets s' l'
      else None
  end.

(** Concrete states of a short session: a raise, a call, a flop bet and
    a fold, on an unshuffled deck. *)
Definition demo_actions : list (Player * Action) :=
  [(Human, Raise 6); (Bot, Call 4); (Bot, Bet 10); (Human, Fold)].

Definition demo_start : GameState :=
  Eval vm_compute in
    match GameState_new 100 Deck_new_cards with
    | Some s => s
    | None => GameState_init 0
    end.

Definition demo_end : GameState :=
  Eval vm_compute in
    match run_streets demo_start demo_actions with
    | Some s => s
    | None => GameState_init 0
    end.

(** The round-completion rule in the words of the specification: with a
    stack at zero, complete once the street bets are equal; otherwise the
    bets must be equal and, with no aggressor, on the preflop street the
    last action must be a check by the big blind (the non-button player),
    on the other streets at least two actions must have been taken; with
    an aggressor equal bets complete the round. *)
Definition round_complete_by_spec (t : GameState) : bool :=
  if (player_stack t =? 0) || (bot_stack t =? 0) then player_bet t =? bot_bet t
  else
    (player_bet t =? bot_bet t) &&
    match last_aggressor t with
    | Some _ => true
    | None =>
        if phase_eqb (phase t) Preflop then
          match last_action t with
          | Some (actor, act) =>
              player_eqb actor (opponent (button t)) && action_eqb act Check
          | None => false
          end
        else 2 <=? actions_this_street t
    end.

Definition run_or (o : option GameState) : GameState :=
  match o with Some s => s | None => GameState_init 0 end.

(** Concrete states one operation away from [demo_start]. *)
Definition demo_adv : GameState := Eval vm_compute in run_or (advance_phase demo_start).
Definition demo_call : GameState := Eval vm_compute in run_or (apply_action demo_start Human (Call 1)).
Definition demo_raise : GameState := Eval vm_compute in run_or (apply_action demo_start Human (Raise 30)).
Definition demo_allin : GameState := Eval vm_compute in run_or (apply_action demo_start Human (AllIn 200)).
Definition demo_next : GameState := Eval vm_compute in run_or (start_new_hand demo_end Deck_new_cards).

(** Raising by the offered minimum [n] times in a row, each time for the
    player to act. *)
Fixpoint min_raise_drive (s : GameState) (n : nat) : option GameState :=
  match n with
  | O => Some s
  | S n' =>
      let? aa := available_actions s in
      match min_raise aa with
      | Some r => let? s' := apply_action s (to_act s) (Raise r) in min_raise_drive s' n'
      | None => None
      end
  end.

Definition long_street : GameState :=
  Eval vm_compute in run_or (let? s0 := GameState_new 1000 Deck_new_cards in min_raise_drive s0 255).

Definition big_stack_state : GameState :=
  Eval vm_compute in
    run_or (let? s0 := GameState_new 2147483647 Deck_new_cards in
            run_streets s0 [(Human, Raise 6); (Bot, Raise 12)]).

Definition demo_flop : GameState :=
  Eval vm_compute in run_or (run_streets demo_start [(Human, Raise 30); (Bot, Call 28)]).

Definition demo_bet10 : GameState :=
  Eval vm_compute in
    run_or (run_streets demo_start [(Human, Call 1); (Bot, Check); (Bot, Bet 10)]).

Definition demo_raise30 : GameState :=
  Eval vm_compute in run_or (apply_action demo_bet10 Human (Raise 30)).

(** Both players play the board's straight flush; the pot is 101 and the
    human has the button. *)
Definition split_demo : GameState :=
  set_board
    (set_bot_cards
       (set_player_cards (set_pot demo_start 101) [mkCard Two Hearts; mkCard Three Diamonds])
       [mkCard Two Clubs; mkCard Three Clubs])
    [mkCard Six Spades; mkCard Seven Spades; mkCard Eight Spades;
     mkCard Nine Spades; mkCard Ten Spades].

Definition split_demo_end : GameState := Eval vm_compute in run_or (resolve_showdown split_demo).

(** The straight check with the Ace counted high only: [check_straight]
    without its wheel rule. *)
Definition check_straight_ace_high (sorted_ranks : list Rank) : option Rank :=
  if (length sorted_ranks <? 5)%nat then None else straight_window sorted_ranks.

(** Subsequences: the index subsets of a list, in order. *)
Inductive subseq {A : Type} : list A -> list A -> Prop :=
| sub_nil l : subseq [] l
| sub_take x l l' : subseq l l' -> subseq (x :: l) (x :: l')
| sub_skip x l l' : subseq l l' -> subseq l (x :: l').

Fixpoint binomial (n k : nat) : nat :=
  match n, k with
  | _, O => 1
  | O, S _ => 0
  | S n', S k' => binomial n' k' + binomial n' (S k')
  end.

(** The inner loop of [combinations], for a given recursive call. *)
Definition comb_walk (g : list Card -> list (list Card)) :=
  fix walk (l : list Card) : list (list Card) :=
    match l with
    | [] => []
    | card :: rest => map (cons card) (g rest) ++ walk rest
    end.

Definition seven_hole : list Card := [mkCard Ace Spades; mkCard King Spades].

Definition seven_board : list Card :=
  [mkCard Queen Spades; mkCard Jack Spades; mkCard Two Hearts;
   mkCard Ten Spades; mkCard Ace Diamonds].

(** Bookkeeping fields that the betting of a street leaves alone. *)
Definition same_hand (s s' : GameState) : Prop :=
  phase s' = phase s /\ deck s' = deck s /\ player_cards s' = player_cards s
  /\ bot_cards s' = bot_cards s /\ board s' = board s /\ button s' = button s
  /\ hand_number s' = hand_number s /\ hands_played s' = hands_played s
  /\ hands_won s' = hands_won s.

(** The invariant of the session counters. *)
Definition counters_inv (s : GameState) : Prop :=
  hands_won s <= hands_played s /\ phase s <> Summary
  /\ (is_street (phase s) = true -> hand_number s = hands_played s + 1)
  /\ ((phase s = HandComplete \/ phase s = Showdown) -> hand_number s = hands_played s)
  /\ (hand_number s = hands_played s \/ hand_number s = hands_played s + 1).

(** The number of board cards dealt by the time a phase is reached. *)
Definition board_size (ph : GamePhase) : option nat :=
  match ph with
  | Preflop => Some 0%nat | Flop => Some 3%nat | Turn => Some 4%nat
  | River | Showdown => Some 5%nat
  | _ => None
  end.

(** The invariant of the cards: the deck is a permutation of [Deck::new()]
    and the hole cards and the board are its first cards, dealt in order. *)
Definition deal_inv (s : GameState) : Prop :=
  Permutation (deck_cards (deck s)) Deck_new_cards
  /\ player_cards s ++ bot_cards s ++ board s = firstn (deck_index (deck s)) (deck_cards (deck s))
  /\ deck_index (deck s) = (4 + length (board s))%nat
  /\ length (player_cards s) = 2%nat /\ length (bot_cards s) = 2%nat
  /\ phase s <> Summary
  /\ (length (board s) <= 5)%nat
  /\ (forall k, board_size (phase s) = Some k -> length (board s) = k).

(** Ranks in non-increasing (resp. decreasing) order of value. *)
Fixpoint desc_ranks (l : list Rank) : Prop :=
  match l with
  | a :: ((b :: _) as t) => (rank_val b <= rank_val a)%nat /\ desc_ranks t
  | _ => True
  end.

Fixpoint strict_desc_ranks (l : list Rank) : Prop :=
  match l with
  | a :: ((b :: _) as t) => (rank_val b < rank_val a)%nat /\ strict_desc_ranks t
  | _ => True
  end.

(** The five rank values of the straight whose high card is [h]; the
    wheel (high card Five) uses the Ace as 14. *)
Definition straight_vals (h : Rank) : list nat :=
  match h with
  | Five => [14; 5; 4; 3; 2]%nat
  | _ => map (fun i => rank_val h - i)%nat [0; 1; 2; 3; 4]%nat
  end.

Definition hd_val (l : list Rank) : option nat :=
  match l with [] => None | x :: _ => Some (rank_val x) end.

(** A showdown on [demo_start]'s stacks and pot: the bot's 4-5 of spades
    makes an eight-high straight on 6-7-8-K-Q, the human has king high. *)
Definition sd_demo : GameState :=
  set_board
    (set_bot_cards
       (set_player_cards demo_start [mkCard Two Spades; mkCard Three Spades])
       [mkCard Four Spades; mkCard Five Spades])
    [mkCard Six Hearts; mkCard Seven Diamonds; mkCard Eight Clubs;
     mkCard King Hearts; mkCard Queen Diamonds].

Definition sd_demo_end : GameState := Eval vm_compute in run_or (resolve_showdown sd_demo).

(** Stacks of 12: on the flop the bot bets 2, the human raises to 10 and
    the bot raises to 22; the human owes 12, all of their stack. *)
Definition typed_demo : GameState :=
  Eval vm_compute in
    run_or (run_streets (run_or (GameState_new 12 Deck_new_cards))
              [(Human, Call 1); (Bot, Check); (Bot, Bet 2); (Human, Raise 10); (Bot, Raise 22)]).

(** * Proofs *)

#[local] Arguments deal_n : simpl never.

Ltac inv_opt :=
  repeat match goal with
  | H : match ?e with Some _ => _ | None => None end = Some _ |- _ =>
      let E := fresh "E" in destruct e eqn:E; [|discriminate H]
  | H : match ?e with (_, _) => _ end = Some _ |- _ =>
      let E := fresh "E" in destruct e eqn:E
  | H : Some _ = Some _ |- _ => injection H as H; subst
  end.

Lemma add_u32_ok a b c : add_u32 a b = Some c -> c = a + b /\ a + b <= U32_MAX.
Proof.
  unfold add_u32. destruct (N.leb_spec (a + b) U32_MAX); intro Hs; inversion Hs; lia.
Qed.

Lemma sub_u32_ok a b c : sub_u32 a b = Some c -> c = a - b /\ b <= a.
Proof.
  unfold sub_u32. destruct (N.leb_spec b a); intro Hs; inversion Hs; lia.
Qed.

Lemma inc_u8_ok n m : inc_u8 n = Some m -> m = n + 1 /\ n < 255.
Proof.
  unfold inc_u8. destruct (N.leb_spec (n + 1) 255); intro Hs; inversion Hs; lia.
Qed.

Ltac arith_facts :=
  repeat match goal with
  | H : add_u32 _ _ = Some _ |- _ => apply add_u32_ok in H; destruct H as [? ?]; subst
  | H : sub_u32 _ _ = Some _ |- _ => apply sub_u32_ok in H; destruct H as [? ?]; subst
  | H : inc_u8 _ = Some _ |- _ => apply inc_u8_ok in H; destruct H as [? ?]; subst
  end.

Lemma add_chips_chips s p a s' :
  add_chips s p a = Some s' -> chips s' = chips s /\ starting_stack s' = starting_stack s
  /\ phase s' = phase s.
Proof.
  unfold add_chips, chips; destruct p; intro H; inv_opt; arith_facts; cbn;
    repeat split; lia.
Qed.

Lemma handle_fold_chips s p s' :
  handle_fold s p = Some s' ->
  chips s' = chips s /\ starting_stack s' = starting_stack s /\ pot s' = 0
  /\ phase s' = HandComplete.
Proof.
  unfold handle_fold, chips; destruct p; cbn; intro H; inv_opt; arith_facts;
    repeat match goal with
    | H : context [if ?b then _ else _] |- _ => destruct b
    end; inv_opt; cbn; repeat split; lia.
Qed.

Ltac split_matches :=
  repeat (inv_opt; arith_facts;
    match goal with
    | H : context [if ?b then _ else _] |- _ => destruct b eqn:?
    | H : context [match ?c with Lt => _ | Eq => _ | Gt => _ end] |- _ => destruct c eqn:?
    | H : context [match ?p with Human => _ | Bot => _ end] |- _ => destruct p eqn:?
    | _ => idtac
    end; inv_opt).

Lemma resolve_showdown_chips s s' :
  resolve_showdown s = Some s' ->
  chips s' = chips s /\ starting_stack s' = starting_stack s /\ pot s' = 0
  /\ phase s' = Showdown.
Proof.
  unfold resolve_showdown, chips; cbn; intro H.
  split_matches; cbn; repeat split;
    try (pose proof (N.div_mod (pot s) 2 ltac:(lia)); lia); lia.
Qed.

Lemma advance_phase_chips s s' :
  advance_phase s = Some s' ->
  chips s' = chips s /\ starting_stack s' = starting_stack s
  /\ ((phase s' = HandComplete \/ phase s' = Showdown) ->
      pot s' = 0 \/ (phase s' = phase s /\ pot s' = pot s)).
Proof.
  unfold advance_phase; intro H; cbn in H.
  destruct (phase s) eqn:Ph;
    try (destruct (deal_n _ _) eqn:?; inv_opt; unfold chips; cbn;
         repeat split; try lia; intros [Hp | Hp]; discriminate Hp);
    try (inv_opt; unfold chips; cbn; repeat split; try lia; intros _; right; auto).
  apply resolve_showdown_chips in H. unfold chips in *; cbn in H.
  destruct H as (H1 & H2 & H3 & H4). repeat split; try lia; auto.
Qed.

Lemma street_effect_chips s p a s' :
  street_effect s p a = Some s' ->
  chips s' = chips s /\ starting_stack s' = starting_stack s /\ phase s' = phase s.
Proof.
  destruct a; cbn; intro H; inv_opt; auto; try (apply add_chips_chips in H; exact H).
  - unfold apply_bet_or_raise in H; inv_opt; arith_facts.
    apply add_chips_chips in E0; unfold chips in *; cbn; tauto.
  - unfold apply_bet_or_raise in H; inv_opt; arith_facts.
    apply add_chips_chips in E0; unfold chips in *; cbn; tauto.
  - unfold apply_all_in in H; inv_opt; arith_facts.
    apply add_chips_chips in E0.
    destruct (max_bet s <? amount); inv_opt; arith_facts; unfold chips in *; cbn; tauto.
Qed.

Lemma record_action_chips s p a s' :
  record_action s p a = Some s' ->
  chips s' = chips s /\ starting_stack s' = starting_stack s /\ phase s' = phase s
  /\ pot s' = pot s.
Proof. unfold record_action; intro H; inv_opt; unfold chips; cbn; auto. Qed.

(** Every successful [apply_action] keeps the chips in play, and a hand
    that it ends ([HandComplete] or [Showdown]) has an empty pot. *)
Lemma apply_action_chips s p a s' :
  is_street (phase s) = true ->
  apply_action s p a = Some s' ->
  chips s' = chips s /\ starting_stack s' = starting_stack s
  /\ ((phase s' = HandComplete \/ phase s' = Showdown) -> pot s' = 0).
Proof.
  intros Hst H. unfold apply_action in H. inv_opt.
  destruct (record_action_chips _ _ _ _ E) as (R1 & R2 & R3 & R4).
  assert (Hterm : phase g <> HandComplete /\ phase g <> Showdown)
    by (rewrite R3; split; intro Hp; rewrite Hp in Hst; discriminate Hst).
  destruct a;
    try (apply handle_fold_chips in H; destruct H as (? & ? & ? & ?);
         repeat split; try congruence; intros _; auto);
    inv_opt;
    destruct (street_effect_chips _ _ _ _ E0) as (S1 & S2 & S3);
    unfold finish_action in H;
    (destruct (is_betting_round_complete g0);
     [ apply advance_phase_chips in H; destruct H as (A1 & A2 & A3);
       repeat split; try congruence;
       intros Hph; destruct (A3 Hph) as [A | [A B]]; auto;
       exfalso; destruct Hph as [Hp | Hp]; rewrite Hp, S3 in A;
       destruct Hterm; congruence
     | inv_opt; unfold chips in *; cbn; repeat split; try congruence;
       intros Hph; exfalso; destruct Hterm; destruct Hph; congruence ]).
Qed.

(** [start_new_hand] empties the pot without paying it out, then moves the
    blinds from the stacks into the new pot. *)
Lemma start_new_hand_chips s shuffled s' :
  start_new_hand s shuffled = Some s' ->
  chips s' + pot s = chips s /\ starting_stack s' = starting_stack s
  /\ phase s' = Preflop.
Proof.
  unfold start_new_hand; intro H; inv_opt.
  cbn in H; destruct (button s); cbn in H; inv_opt; arith_facts;
    unfold chips; cbn; repeat split; lia.
Qed.

Lemma GameState_new_init n shuffled s :
  GameState_new n shuffled = Some s ->
  chips s = 2 * starting_stack s.
Proof.
  unfold GameState_new; intro H; inv_opt.
  apply start_new_hand_chips in H; destruct H as (H1 & H2 & _).
  unfold chips in *; cbn in H1, H2; rewrite H2; lia.
Qed.

Lemma session_step_inv total s s' :
  session_inv total s -> session_step s s' -> session_inv total s'.
Proof.
  intros (I1 & I2 & I3) Hs; destruct Hs as [s p a s' Hst Ha | s sh s' Hph Hn | s].
  - destruct (apply_action_chips _ _ _ _ Hst Ha) as (A1 & A2 & A3).
    repeat split; try congruence; auto.
  - destruct (start_new_hand_chips _ _ _ Hn) as (N1 & N2 & N3).
    specialize (I3 Hph). repeat split; try congruence; try lia;
    intros [Hp | Hp]; congruence.
  - unfold session_inv, chips in *; repeat split; [exact I1 | exact I2 |].
    intros [Hp | Hp]; discriminate Hp.
Qed.

Lemma reachable_inv total s0 s :
  session_inv total s0 -> reachable s0 s -> session_inv total s.
Proof.
  intros H0 R; induction R; auto. eapply session_step_inv; eauto.
Qed.

Lemma run_streets_reachable s0 s l s' :
  reachable s0 s -> run_streets s l = Some s' -> reachable s0 s'.
Proof.
  revert s; induction l as [|[p a] l IH]; cbn; intros s R H.
  - inv_opt; exact R.
  - destruct (is_street (phase s)) eqn:St; [|discriminate H]. inv_opt.
    apply (IH g); auto. eapply reach_step; eauto. eapply step_action; eauto.
Qed.

(** ** C1: chip conservation *)

(** C1.  From the start of a session ([GameState::new]), along any
    sequence of successful operations the driver can perform (actions on a
    betting street, with blinds, street advances, fold and showdown
    settlement inside them; new hands from [HandComplete] or [Showdown];
    ending the session), every operation keeps
    [player_stack + bot_stack + pot], which always equals the session's
    total [2 * starting_stack]. *)
Theorem chip_conservation n shuffled s0 s :
  GameState_new n shuffled = Some s0 -> reachable s0 s ->
  chips s = 2 * starting_stack s0 /\ starting_stack s = starting_stack s0
  /\ (forall s', session_step s s' -> chips s' = chips s).
Proof.
  intros Hn R.
  assert (I0 : session_inv (2 * starting_stack s0) s0).
  { pose proof (GameState_new_init _ _ _ Hn) as C.
    unfold GameState_new in Hn; inv_opt.
    destruct (start_new_hand_chips _ _ _ Hn) as (_ & _ & Hp).
    repeat split; auto. intros [H | H]; congruence. }
  destruct (reachable_inv _ _ _ I0 R) as (I1 & I2 & I3).
  repeat split; try lia.
  intros s' St. destruct (session_step_inv _ _ _ (conj I1 (conj I2 I3)) St) as (J & _).
  congruence.
Qed.

Lemma chip_conservation_witness :
  GameState_new 100 Deck_new_cards = Some demo_start
  /\ run_streets demo_start demo_actions = Some demo_end
  /\ phase demo_end = HandComplete
  /\ chips demo_end = 2 * starting_stack demo_start.
Proof.
  split; [vm_compute; reflexivity|]. split; [vm_compute; reflexivity|].
  split; [vm_compute; reflexivity|].
  refine (proj1 (chip_conservation 100 Deck_new_cards demo_start demo_end _ _)).
  - vm_compute; reflexivity.
  - apply (run_streets_reachable demo_start demo_start demo_actions);
      [apply reach_here | vm_compute; reflexivity].
Defined.

(** ** C4: round completion *)

Lemma is_betting_round_complete_spec t :
  is_betting_round_complete t = round_complete_by_spec t.
Proof.
  unfold is_betting_round_complete, round_complete_by_spec.
  destruct ((player_stack t =? 0) || (bot_stack t =? 0)); [reflexivity|].
  destruct (player_bet t =? bot_bet t); cbn; [|reflexivity].
  destruct (last_aggressor t); cbn; destruct (phase_eqb (phase t) Preflop); reflexivity.
Qed.

(** C4.  After every non-fold action (its bookkeeping and its chip
    movement done, giving [t]), [apply_action] advances the street exactly
    when the specification's round-completion rule holds of [t], and
    otherwise passes the turn to the opponent. *)
Theorem round_completion_rule s p a :
  a <> Fold ->
  apply_action s p a =
    (let? s1 := record_action s p a in
     let? t := street_effect s1 p a in
     if round_complete_by_spec t then advance_phase t
     else Some (set_to_act t (opponent p))).
Proof.
  intro Ha. unfold apply_action.
  destruct (record_action s p a) as [s1|]; [|reflexivity].
  destruct a; [congruence| | | | |];
    (destruct (street_effect s1 p _) as [t|] eqn:E; [|reflexivity]);
    unfold finish_action; rewrite is_betting_round_complete_spec; reflexivity.
Qed.

Lemma round_completion_rule_witness :
  Call 1 <> Fold /\
  apply_action demo_start Human (Call 1)
  = (let? s1 := record_action demo_start Human (Call 1) in
     let? t := street_effect s1 Human (Call 1) in
     if round_complete_by_spec t then advance_phase t
     else Some (set_to_act t (opponent Human))).
Proof.
  split; [discriminate|].
  apply round_completion_rule. discriminate.
Defined.

(** ** Frame lemmas of the street machinery *)

Lemma resolve_showdown_frame t t' :
  resolve_showdown t = Some t' ->
  player_bet t' = player_bet t /\ bot_bet t' = bot_bet t
  /\ last_aggressor t' = last_aggressor t
  /\ actions_this_street t' = actions_this_street t
  /\ last_raise_size t' = last_raise_size t.
Proof.
  unfold resolve_showdown; cbn; intro H. split_matches; cbn; auto 6.
Qed.

Lemma advance_phase_frame s s' :
  advance_phase s = Some s' ->
  player_bet s' = 0 /\ bot_bet s' = 0 /\ last_aggressor s' = None
  /\ actions_this_street s' = 0 /\ last_raise_size s' = last_raise_size s.
Proof.
  unfold advance_phase; intro H; cbn in H.
  destruct (phase s);
    try (destruct (deal_n _ _); inv_opt; cbn; auto 6; fail);
    try (inv_opt; cbn; auto 6; fail).
  apply resolve_showdown_frame in H; cbn in H. exact H.
Qed.

Lemma advance_phase_phase s s' :
  is_street (phase s) = true -> advance_phase s = Some s' -> phase s' <> phase s.
Proof.
  unfold advance_phase; intros Hs H; cbn in H.
  destruct (phase s) eqn:Ph; try discriminate Hs;
    try (destruct (deal_n _ _); inv_opt; cbn; discriminate).
  apply resolve_showdown_chips in H. destruct H as (_ & _ & _ & H). congruence.
Qed.

Lemma finish_action_lrs t p s' :
  finish_action t p = Some s' -> last_raise_size s' = last_raise_size t.
Proof.
  unfold finish_action; destruct (is_betting_round_complete t); intro H.
  - apply advance_phase_frame in H; tauto.
  - inv_opt; reflexivity.
Qed.

Lemma record_action_fields s p a s1 :
  record_action s p a = Some s1 ->
  player_bet s1 = player_bet s /\ bot_bet s1 = bot_bet s
  /\ player_stack s1 = player_stack s /\ bot_stack s1 = bot_stack s
  /\ pot s1 = pot s /\ phase s1 = phase s /\ last_raise_size s1 = last_raise_size s
  /\ last_aggressor s1 = last_aggressor s /\ button s1 = button s
  /\ board s1 = board s /\ deck s1 = deck s
  /\ showdown_result s1 = showdown_result s
  /\ last_action s1 = Some (p, a) /\ actions_this_street s1 = actions_this_street s + 1.
Proof.
  unfold record_action; intro H; inv_opt; arith_facts; cbn; repeat split.
Qed.

Lemma add_chips_lrs s p x t :
  add_chips s p x = Some t ->
  last_raise_size t = last_raise_size s /\ last_aggressor t = last_aggressor s.
Proof. unfold add_chips; destruct p; intro H; inv_opt; cbn; auto. Qed.

Lemma apply_bet_or_raise_lrs s p x t :
  apply_bet_or_raise s p x = Some t -> last_raise_size t = x - max_bet s.
Proof.
  unfold apply_bet_or_raise; intro H; inv_opt.
  arith_facts; reflexivity.
Qed.

Lemma apply_all_in_lrs s p x t :
  apply_all_in s p x = Some t ->
  last_raise_size t = (if max_bet s <? x then x - max_bet s else last_raise_size s).
Proof.
  unfold apply_all_in; intro H.
  destruct (sub_u32 x (current_bet s p)) as [a|]; try discriminate H.
  destruct (add_chips s p a) as [u|] eqn:A; try discriminate H.
  destruct (add_chips_lrs _ _ _ _ A) as [L _].
  destruct (max_bet s <? x).
  - destruct (sub_u32 x (max_bet s)) as [l|] eqn:S; try discriminate H.
    injection H as <-; arith_facts; reflexivity.
  - injection H as <-; exact L.
Qed.

Lemma apply_action_passive_lrs s p a s' :
  (a = Check \/ a = Fold \/ exists x, a = Call x) ->
  apply_action s p a = Some s' -> last_raise_size s' = last_raise_size s.
Proof.
  intros Ha H. unfold apply_action in H; inv_opt.
  destruct (record_action_fields _ _ _ _ E) as (_ & _ & _ & _ & _ & _ & L & _).
  destruct Ha as [-> | [-> | [x ->]]].
  - cbn in H. rewrite (finish_action_lrs _ _ _ H). exact L.
  - unfold handle_fold in H; inv_opt;
      destruct (opponent p); inv_opt; repeat (destruct (_ <? _)); inv_opt; cbn; exact L.
  - cbn in H; inv_opt. rewrite (finish_action_lrs _ _ _ H).
    apply add_chips_lrs in E0. destruct E0 as [E0 _]. congruence.
Qed.

Lemma apply_action_bet_raise_lrs s p x s' :
  (apply_action s p (Bet x) = Some s' \/ apply_action s p (Raise x) = Some s') ->
  last_raise_size s' = x - max_bet s.
Proof.
  intro Hb.
  destruct Hb as [H | H]; unfold apply_action in H;
    destruct (record_action s p _) as [g|] eqn:E; try discriminate H;
    cbn [street_effect] in H;
    destruct (apply_bet_or_raise g p x) as [t|] eqn:E0; try discriminate H;
    rewrite (finish_action_lrs _ _ _ H), (apply_bet_or_raise_lrs _ _ _ _ E0);
    destruct (record_action_fields _ _ _ _ E) as (B1 & B2 & _);
    unfold max_bet; rewrite B1, B2; reflexivity.
Qed.

Lemma apply_action_all_in_lrs s p x s' :
  apply_action s p (AllIn x) = Some s' ->
  last_raise_size s' = (if max_bet s <? x then x - max_bet s else last_raise_size s).
Proof.
  intro H. unfold apply_action in H.
  destruct (record_action s p _) as [g|] eqn:E; try discriminate H.
  cbn [street_effect] in H.
  destruct (apply_all_in g p x) as [t|] eqn:E0; try discriminate H.
  rewrite (finish_action_lrs _ _ _ H), (apply_all_in_lrs _ _ _ _ E0).
  destruct (record_action_fields _ _ _ _ E) as (B1 & B2 & _ & _ & _ & _ & L & _).
  assert (M : max_bet g = max_bet s) by (unfold max_bet; rewrite B1, B2; reflexivity).
  rewrite M, L; reflexivity.
Qed.

Lemma start_new_hand_lrs s sh s' :
  start_new_hand s sh = Some s' -> last_raise_size s' = BIG_BLIND.
Proof.
  intro H. unfold start_new_hand in H; inv_opt; cbn in H.
  destruct (button s); cbn in H; inv_opt; reflexivity.
Qed.

(** ** C10: what a street advance leaves in place *)

(** C10.  Advancing a street zeroes both street bets, clears the last
    aggressor and the action counter but keeps [last_raise_size], which
    then still feeds the raise-to floor of the new street
    ([0 + max(last_raise_size, BIG_BLIND)]); checks, calls and folds keep
    it; a bet or raise overwrites it with [amount - highest bet], an all-in
    does so when it exceeds the highest bet; only [start_new_hand] puts it
    back to [BIG_BLIND]. *)
Theorem street_advance_keeps_raise_size :
  (forall s s', advance_phase s = Some s' ->
     player_bet s' = 0 /\ bot_bet s' = 0 /\ last_aggressor s' = None
     /\ actions_this_street s' = 0 /\ last_raise_size s' = last_raise_size s
     /\ min_raise_to s' = add_u32 0 (N.max (last_raise_size s) BIG_BLIND))
  /\ (forall s p a s', (a = Check \/ a = Fold \/ exists x, a = Call x) ->
        apply_action s p a = Some s' -> last_raise_size s' = last_raise_size s)
  /\ (forall s p x s', (apply_action s p (Bet x) = Some s' \/ apply_action s p (Raise x) = Some s') ->
        last_raise_size s' = x - max_bet s)
  /\ (forall s p x s', apply_action s p (AllIn x) = Some s' ->
        last_raise_size s' = (if max_bet s <? x then x - max_bet s else last_raise_size s))
  /\ (forall s shuffled s', start_new_hand s shuffled = Some s' ->
        last_raise_size s' = BIG_BLIND).
Proof.
  refine (conj _ (conj _ (conj _ (conj _ _)))).
  - intros s s' H. pose proof (advance_phase_frame _ _ H) as F.
    destruct F as (H1 & H2 & H3 & H4 & H5). repeat split; try assumption.
    unfold min_raise_to, max_bet; rewrite H1, H2, H5; reflexivity.
  - exact apply_action_passive_lrs.
  - exact apply_action_bet_raise_lrs.
  - exact apply_action_all_in_lrs.
  - exact start_new_hand_lrs.
Qed.

Lemma street_advance_keeps_raise_size_witness :
  last_raise_size demo_adv = 2 /\ min_raise_to demo_adv = Some 2
  /\ last_raise_size demo_call = 2 /\ last_raise_size demo_raise = 28
  /\ last_raise_size demo_allin = 198 /\ last_raise_size demo_next = BIG_BLIND.
Proof.
  destruct street_advance_keeps_raise_size as (P1 & P2 & P3 & P4 & P5).
  split.
  { destruct (P1 demo_start demo_adv) as (_ & _ & _ & _ & L & _);
      [vm_compute; reflexivity|]. rewrite L; vm_compute; reflexivity. }
  split.
  { destruct (P1 demo_start demo_adv) as (_ & _ & _ & _ & _ & M);
      [vm_compute; reflexivity|]. rewrite M; vm_compute; reflexivity. }
  split.
  { rewrite (P2 demo_start Human (Call 1) demo_call);
      [vm_compute; reflexivity | right; right; exists 1; reflexivity
      | vm_compute; reflexivity]. }
  split.
  { rewrite (P3 demo_start Human 30 demo_raise);
      [vm_compute; reflexivity | right; vm_compute; reflexivity]. }
  split.
  { rewrite (P4 demo_start Human 200 demo_allin);
      [vm_compute; reflexivity | vm_compute; reflexivity]. }
  apply (P5 demo_end Deck_new_cards demo_next); vm_compute; reflexivity.
Defined.

(** ** C8: fold settlement *)

(** A fold settles the hand as intended as long as no counter overflows:
    the winner's stack grows by the whole pot, the pot is emptied and the
    hand is complete, with no card dealt and no showdown. *)
Lemma apply_fold_settles s p :
  actions_this_street s < 255 ->
  (match opponent p with Human => player_stack s | Bot => bot_stack s end) + pot s <= U32_MAX ->
  hands_won s < U32_MAX -> hands_played s < U32_MAX ->
  exists s', apply_action s p Fold = Some s'
    /\ pot s' = 0 /\ phase s' = HandComplete
    /\ (match opponent p with Human => player_stack s' | Bot => bot_stack s' end)
       = (match opponent p with Human => player_stack s | Bot => bot_stack s end) + pot s
    /\ (match p with Human => player_stack s' | Bot => bot_stack s' end)
       = (match p with Human => player_stack s | Bot => bot_stack s end)
    /\ board s' = board s /\ deck s' = deck s /\ showdown_result s' = showdown_result s.
Proof.
  intros H1 H2 H3 H4.
  unfold apply_action, record_action, inc_u8, handle_fold, add_u32.
  destruct p; cbn in *;
    repeat (match goal with
            | |- context [?a <=? ?b] => rewrite (proj2 (N.leb_le a b)) by lia
            | |- context [?a <? ?b] => destruct (a <? b)
            end; cbn);
    eexists; repeat split.
Qed.

(** C8 (divergence).  A fold does not always settle the hand.  With
    [--stack 2147483647] (starting stack [2^32 - 2] chips), after the
    preflop actions Raise 6 by the human and Raise 12 by the bot, a human
    fold must add the pot of 18 to the bot's stack of [2^32 - 14]: the sum
    exceeds [u32::MAX], so [handle_fold] panics in an overflow-checked
    build (a release build wraps the bot's stack to 4 chips).  Likewise,
    after 255 offered minimum raises on one street ([--stack 1000]), the
    [u8] counter [actions_this_street] is 255 and the increment made by
    [apply_action] before it reaches [handle_fold] overflows. *)
Theorem fold_settlement_overflows :
  (let? s0 := GameState_new 2147483647 Deck_new_cards in
   run_streets s0 [(Human, Raise 6); (Bot, Raise 12)]) = Some big_stack_state
  /\ phase big_stack_state = Preflop /\ pot big_stack_state = 18
  /\ bot_stack big_stack_state = 4294967282
  /\ U32_MAX < bot_stack big_stack_state + pot big_stack_state
  /\ apply_action big_stack_state Human Fold = None
  /\ (let? s0 := GameState_new 1000 Deck_new_cards in min_raise_drive s0 255) = Some long_street
  /\ phase long_street = Preflop /\ actions_this_street long_street = 255
  /\ pot long_street = 1022
  /\ apply_action long_street (to_act long_street) Fold = None.
Proof.
  repeat split; vm_compute; reflexivity.
Qed.

(** ** C3: minimum-raise floor *)

Lemma add_chips_bets s p a t :
  add_chips s p a = Some t ->
  current_bet t p = current_bet s p + N.min a (stack_of s p)
  /\ current_bet t (opponent p) = current_bet s (opponent p)
  /\ stack_of t p = stack_of s p - N.min a (stack_of s p)
  /\ stack_of t (opponent p) = stack_of s (opponent p)
  /\ pot t = pot s + N.min a (stack_of s p)
  /\ phase t = phase s.
Proof.
  unfold add_chips; destruct p; intro H; inv_opt; arith_facts; cbn; repeat split.
Qed.

(** C3 (counterexample).  The floor is not tied to the current street:
    after a preflop raise to 30 and a call, the flop starts with no bet
    and no aggressive action, yet [available_actions] computes the floor
    [0 + max(28, BIG_BLIND) = 28], not [0 + BIG_BLIND = 2], because
    [last_raise_size] keeps the preflop raise size.  The carried size
    reaches an offered [min_raise]: when the bot, first to act on that
    flop, calls 5 with nothing owed (no aggressive action), the human owes
    5 and is offered a raise to [5 + 28 = 33], not [5 + BIG_BLIND = 7]. *)
Lemma min_raise_law_counterexample :
  run_streets demo_start [(Human, Raise 30); (Bot, Call 28)] = Some demo_flop
  /\ phase demo_flop = Flop /\ last_aggressor demo_flop = None
  /\ actions_this_street demo_flop = 0 /\ max_bet demo_flop = 0
  /\ available_actions demo_flop <> None
  /\ min_raise_to demo_flop = Some 28
  /\ min_raise_to demo_flop <> Some (max_bet demo_flop + BIG_BLIND)
  /\ to_act demo_flop = Bot
  /\ option_map (fun t => (last_aggressor t, max_bet t, amount_to_call t (to_act t),
                           option_map min_raise (available_actions t)))
       (apply_action demo_flop Bot (Call 5)) = Some (None, 5, 5, Some (Some 33))
  /\ 33 <> 5 + BIG_BLIND.
Proof.
  repeat split; first [vm_compute; reflexivity | intro Hc; vm_compute in Hc; discriminate Hc].
Qed.

(** A bet or raise to [x] on a betting street that does not end the
    street ([x] at least the highest bet, affordable from the actor's
    stack) hands the turn to the opponent and makes [x] the highest bet. *)
Lemma raise_mid_street s p a x s' :
  (a = Bet x \/ a = Raise x) ->
  is_street (phase s) = true ->
  max_bet s <= x -> x - current_bet s p <= stack_of s p ->
  apply_action s p a = Some s' -> phase s' = phase s ->
  to_act s' = opponent p /\ max_bet s' = x /\ last_raise_size s' = x - max_bet s
  /\ min_raise_to s' = add_u32 x (N.max (x - max_bet s) BIG_BLIND).
Proof.
  intros Ha St Hm Hc H Ph.
  unfold apply_action in H.
  destruct (record_action s p a) as [g|] eqn:E; try discriminate H.
  destruct (record_action_fields _ _ _ _ E) as (B1 & B2 & S1 & S2 & _ & Pg & _).
  assert (Ht : exists t, apply_bet_or_raise g p x = Some t /\ finish_action t p = Some s').
  { destruct Ha as [-> | ->]; cbn [street_effect] in H;
      destruct (apply_bet_or_raise g p x); eauto; discriminate H. }
  clear H; destruct Ht as (t & At & F).
  assert (Mg : max_bet g = max_bet s) by (unfold max_bet; rewrite B1, B2; reflexivity).
  assert (Cg : forall q, current_bet g q = current_bet s q)
    by (intro q; destruct q; cbn; assumption).
  assert (Sg : forall q, stack_of g q = stack_of s q)
    by (intro q; destruct q; cbn; assumption).
  unfold apply_bet_or_raise in At.
  destruct (sub_u32 x (current_bet g p)) as [d|] eqn:D1; try discriminate At.
  destruct (add_chips g p d) as [u|] eqn:A; try discriminate At.
  destruct (sub_u32 x (max_bet g)) as [l|] eqn:D2; try discriminate At.
  injection At as <-. arith_facts.
  destruct (add_chips_bets _ _ _ _ A) as (U1 & U2 & _ & _ & _ & Pu).
  rewrite Cg, Sg in *. rewrite Mg in *.
  unfold finish_action in F.
  destruct (is_betting_round_complete _) eqn:C.
  - exfalso. apply advance_phase_phase in F.
    + apply F. cbn in Ph |- *. congruence.
    + cbn. rewrite Pu, Pg. exact St.
  - injection F as <-.
    assert (Mx : max_bet (set_to_act (set_last_raise_size (set_last_aggressor u (Some p))
                   (x - max_bet s)) (opponent p)) = x).
    { unfold max_bet; cbn.
      assert (Hcb : current_bet s p <= max_bet s)
        by (unfold max_bet; destruct p; cbn; lia).
      destruct p; cbn in U1, U2, Hc, Hcb |- *; unfold max_bet in *; lia. }
    repeat split; try exact Mx.
    unfold min_raise_to. rewrite Mx. reflexivity.
Qed.

Lemma add_u32_some a b : a + b <= U32_MAX -> add_u32 a b = Some (a + b).
Proof. unfold add_u32; intro H. rewrite (proj2 (N.leb_le _ _) H); reflexivity. Qed.

Lemma available_actions_spec s aa :
  available_actions s = Some aa ->
  exists mrt, min_raise_to s = Some mrt
    /\ aa = AvailableActions_new (amount_to_call s (to_act s)) mrt (stack_of s (to_act s)) BIG_BLIND.
Proof.
  unfold available_actions; intro H.
  destruct (min_raise_to s) as [m|]; [|discriminate H]. injection H as <-.
  exists m; split; [reflexivity|]. destruct (to_act s); reflexivity.
Qed.

(** C3 (amended).  Whenever [available_actions] succeeds, the floor
    [min_raise_to] is the highest bet plus [max(last_raise_size,
    BIG_BLIND)], and an offered [min_raise] is that floor.
    [last_raise_size] is the size of the last aggressive action of the
    hand: a bet or raise to [x] sets it to [x - highest bet] (affordable or
    not), an all-in to [x] does so when [x] exceeds the highest bet and
    otherwise keeps it, checks, calls and folds keep it, a street advance
    keeps it while zeroing the street bets, and only [start_new_hand] puts
    it back to [BIG_BLIND].  After an affordable bet or raise to [x] (at
    least the highest bet) that does not end the street, the opponent is to
    act and the floor is [x + max(x - old highest bet, BIG_BLIND)]. *)
Theorem min_raise_law :
  (forall s aa, available_actions s = Some aa ->
     min_raise_to s = Some (max_bet s + N.max (last_raise_size s) BIG_BLIND)
     /\ forall r, min_raise aa = Some r ->
        r = max_bet s + N.max (last_raise_size s) BIG_BLIND)
  /\ (forall s p x s', (apply_action s p (Bet x) = Some s' \/ apply_action s p (Raise x) = Some s') ->
        last_raise_size s' = x - max_bet s)
  /\ (forall s p x s', apply_action s p (AllIn x) = Some s' ->
        last_raise_size s' = (if max_bet s <? x then x - max_bet s else last_raise_size s))
  /\ (forall s p a s', (a = Check \/ a = Fold \/ exists x, a = Call x) ->
        apply_action s p a = Some s' -> last_raise_size s' = last_raise_size s)
  /\ (forall s s', advance_phase s = Some s' ->
        last_raise_size s' = last_raise_size s /\ max_bet s' = 0)
  /\ (forall s shuffled s', start_new_hand s shuffled = Some s' ->
        last_raise_size s' = BIG_BLIND)
  /\ (forall s p a x s', (a = Bet x \/ a = Raise x) ->
        is_street (phase s) = true ->
        max_bet s <= x -> x - current_bet s p <= stack_of s p ->
        apply_action s p a = Some s' -> phase s' = phase s ->
        to_act s' = opponent p /\ max_bet s' = x /\ last_raise_size s' = x - max_bet s
        /\ min_raise_to s' = add_u32 x (N.max (x - max_bet s) BIG_BLIND)).
Proof.
  refine (conj _ (conj _ (conj _ (conj _ (conj _ (conj _ _)))))).
  - intros s aa Ha. destruct (available_actions_spec _ _ Ha) as (m & Hm & ->).
    assert (E : m = max_bet s + N.max (last_raise_size s) BIG_BLIND).
    { unfold min_raise_to, add_u32 in Hm.
      destruct (_ <=? _); [injection Hm as <-; reflexivity | discriminate Hm]. }
    subst m. split; [exact Hm|].
    intros r Hr; cbn in Hr. destruct (_ && _); [injection Hr as <-; reflexivity | discriminate Hr].
  - exact apply_action_bet_raise_lrs.
  - exact apply_action_all_in_lrs.
  - exact apply_action_passive_lrs.
  - intros s s' H. destruct (advance_phase_frame _ _ H) as (H1 & H2 & _ & _ & H5).
    split; [exact H5|]. unfold max_bet; rewrite H1, H2; reflexivity.
  - exact start_new_hand_lrs.
  - exact raise_mid_street.
Qed.

Lemma min_raise_law_witness :
  min_raise_to demo_raise30 = Some 50
  /\ option_map min_raise (available_actions demo_raise30) = Some (Some 50)
  /\ last_raise_size demo_flop = 28 /\ min_raise_to demo_flop = Some 28.
Proof.
  destruct min_raise_law as (F & _ & _ & _ & _ & _ & R).
  assert (A : available_actions demo_raise30 <> None) by (vm_compute; discriminate).
  destruct (available_actions demo_raise30) as [aa|] eqn:Ha; [|contradiction A; reflexivity].
  destruct (F demo_raise30 aa Ha) as [M1 M2].
  destruct (R demo_bet10 Human (Raise 30) 30 demo_raise30)
    as (_ & _ & _ & M);
    [right; reflexivity | vm_compute; reflexivity | vm_compute; discriminate
    | vm_compute; discriminate | vm_compute; reflexivity | vm_compute; reflexivity |].
  split; [rewrite M; vm_compute; reflexivity|].
  split; [rewrite <- Ha; vm_compute; reflexivity|].
  assert (B : available_actions demo_flop <> None) by (vm_compute; discriminate).
  destruct (available_actions demo_flop) as [bb|] eqn:Hb; [|contradiction B; reflexivity].
  destruct (F demo_flop bb Hb) as [N1 _].
  split; [vm_compute; reflexivity|]. rewrite N1. vm_compute. reflexivity.
Defined.

(** ** C5: split pot *)

Lemma kickers_cmp_refl l : kickers_cmp l l = Eq.
Proof.
  induction l as [|x l IH]; cbn; auto. unfold rank_cmp; rewrite Nat.compare_refl; exact IH.
Qed.

(** C5.  When the two evaluations are exactly equal, the showdown records
    no winner, empties the pot and splits it: the button gets [pot / 2],
    the non-button player [pot / 2 + pot mod 2]. *)
Theorem split_pot_parity s s' e :
  evaluate_hand (player_cards s) (board s) = Some e ->
  evaluate_hand (bot_cards s) (board s) = Some e ->
  resolve_showdown s = Some s' ->
  option_map winner (showdown_result s') = Some None /\ pot s' = 0
  /\ phase s' = Showdown
  /\ stack_of s' (opponent (button s)) = stack_of s (opponent (button s)) + (pot s / 2 + pot s mod 2)
  /\ stack_of s' (button s) = stack_of s (button s) + pot s / 2.
Proof.
  intros Hp Hb H. unfold resolve_showdown in H. rewrite Hp, Hb in H.
  rewrite Nat.compare_refl, kickers_cmp_refl in H.
  destruct (button s) eqn:Bt; cbn in H; inv_opt; arith_facts; cbn; rewrite ?Bt;
    repeat split; lia.
Qed.

Lemma split_pot_parity_witness :
  button split_demo = Human
  /\ bot_stack split_demo_end = bot_stack split_demo + 51
  /\ player_stack split_demo_end = player_stack split_demo + 50.
Proof.
  destruct (split_pot_parity split_demo split_demo_end
              (mkEval StraightFlush [Ten]))
    as (_ & _ & _ & O & B);
    [vm_compute; reflexivity | vm_compute; reflexivity | vm_compute; reflexivity |].
  split; [vm_compute; reflexivity|].
  assert (Bt : button split_demo = Human) by (vm_compute; reflexivity).
  rewrite Bt in O, B. split; [exact O | exact B].
Defined.

(** ** C7: invalid amounts and clamping of chip movements *)

Lemma add_chips_some s p a :
  player_bet s + bot_bet s <= pot s -> chips s <= U32_MAX ->
  exists t, add_chips s p a = Some t.
Proof.
  unfold add_chips, chips, sub_u32, add_u32; intros H1 H2.
  destruct p;
    repeat (match goal with
            | |- context [?a <=? ?b] => rewrite (proj2 (N.leb_le a b)) by lia
            end); eexists; reflexivity.
Qed.

Lemma sub_u32_some a b : b <= a -> sub_u32 a b = Some (a - b).
Proof. unfold sub_u32; intro H. rewrite (proj2 (N.leb_le b a) H); reflexivity. Qed.

Lemma current_le_max s p : current_bet s p <= max_bet s.
Proof. unfold max_bet; destruct p; cbn; lia. Qed.

(** C7 (code bug).  Amounts are not clamped to legal values: a [Bet] or
    [Raise] to less than the actor's street bet or the highest bet makes a
    [u32] subtraction of [apply_action] underflow ([amount - current_bet],
    [amount - old_max]), while [add_chips] clamps and [amount_to_call]
    guards the same subtraction.  A raise to 1 by the small blind at the
    start of a hand (offered minimum 4) underflows [1 - 2].  The path is
    reachable from the keyboard: after the human's raise to 10 is re-raised
    to 22 by the bot with the human left with 12 chips, nothing but a
    raise is offered, so the floor of the raise box is 2; typing 5 and
    Enter submits [Raise 5], and both [projected_bet] and [apply_action]
    compute [5 - 10]. *)
Theorem invalid_amount_underflows :
  option_map min_raise (available_actions demo_start) = Some (Some 4)
  /\ to_act demo_start = Human /\ max_bet demo_start = 2
  /\ sub_u32 1 (max_bet demo_start) = None
  /\ apply_action demo_start Human (Raise 1) = None
  /\ run_streets (run_or (GameState_new 12 Deck_new_cards))
       [(Human, Call 1); (Bot, Check); (Bot, Bet 2); (Human, Raise 10); (Bot, Raise 22)]
     = Some typed_demo
  /\ is_player_turn typed_demo = true
  /\ player_bet typed_demo = 10 /\ bot_bet typed_demo = 22
  /\ player_stack typed_demo = 12 /\ amount_to_call typed_demo Human = 12
  /\ option_map raise_floor (available_actions typed_demo) = Some 2
  /\ option_map (fun aa => submit_raise 5 aa (player_bet typed_demo) (player_stack typed_demo)
                             (amount_to_call typed_demo Human))
       (available_actions typed_demo) = Some (Some (Raise 5))
  /\ sub_u32 5 (player_bet typed_demo) = None
  /\ projected_bet typed_demo Human (Raise 5) = None
  /\ apply_action typed_demo Human (Raise 5) = None.
Proof. repeat split; vm_compute; reflexivity. Qed.

(** On a hand whose street bets are in the pot and whose chips fit in
    [u32], the chip movement of an action completes for a
    [Call] of any amount, a [Bet] or [Raise] to at least the highest bet
    and an [AllIn] to at least the actor's current bet; it charges the
    actor [min(requested, stack)] (the request being the call amount, or
    the target minus the actor's street bet), moves exactly that into the
    actor's bet and the pot, and leaves the opponent's stack alone. *)
Theorem clamped_chip_movement s p a :
  player_bet s + bot_bet s <= pot s -> chips s <= U32_MAX ->
  match a with
  | Call _ => True
  | Bet x | Raise x => max_bet s <= x
  | AllIn x => current_bet s p <= x
  | Fold | Check => False
  end ->
  let req := match a with
             | Call x => x
             | Bet x | Raise x | AllIn x => x - current_bet s p
             | Fold | Check => 0
             end in
  exists t, street_effect s p a = Some t
    /\ stack_of t p = stack_of s p - N.min req (stack_of s p)
    /\ current_bet t p = current_bet s p + N.min req (stack_of s p)
    /\ pot t = pot s + N.min req (stack_of s p)
    /\ stack_of t (opponent p) = stack_of s (opponent p)
    /\ current_bet t (opponent p) = current_bet s (opponent p).
Proof.
  intros H1 H2 Ha req.
  assert (Gen : forall u, add_chips s p req = Some u ->
             stack_of u p = stack_of s p - N.min req (stack_of s p)
             /\ current_bet u p = current_bet s p + N.min req (stack_of s p)
             /\ pot u = pot s + N.min req (stack_of s p)
             /\ stack_of u (opponent p) = stack_of s (opponent p)
             /\ current_bet u (opponent p) = current_bet s (opponent p)).
  { intros u A. destruct (add_chips_bets _ _ _ _ A) as (U1 & U2 & U3 & U4 & U5 & _).
    repeat split; assumption. }
  destruct (add_chips_some s p req H1 H2) as [u A].
  pose proof (current_le_max s p) as Cm.
  destruct (Gen u A) as (G1 & G2 & G3 & G4 & G5).
  destruct a as [| | x | x | x | x]; try contradiction; unfold street_effect.
  - exists u; auto 7.
  - unfold apply_bet_or_raise. rewrite (sub_u32_some x (current_bet s p)) by lia.
    fold req; rewrite A, (sub_u32_some x (max_bet s)) by lia.
    eexists; split; [reflexivity|].
    destruct p; cbn in *; auto 7.
  - unfold apply_bet_or_raise. rewrite (sub_u32_some x (current_bet s p)) by lia.
    fold req; rewrite A, (sub_u32_some x (max_bet s)) by lia.
    eexists; split; [reflexivity|].
    destruct p; cbn in *; auto 7.
  - unfold apply_all_in. rewrite (sub_u32_some x (current_bet s p)) by lia.
    fold req; rewrite A.
    destruct (N.ltb_spec (max_bet s) x).
    + rewrite (sub_u32_some x (max_bet s)) by lia.
      eexists; split; [reflexivity|]. destruct p; cbn in *; auto 7.
    + exists u; auto 7.
Qed.

Lemma clamped_chip_movement_witness :
  exists t, street_effect demo_start Human (Call 500) = Some t
    /\ player_stack t = 0 /\ pot t = 202.
Proof.
  destruct (clamped_chip_movement demo_start Human (Call 500))
    as (t & E & S & _ & P & _);
    [vm_compute; discriminate | vm_compute; discriminate | exact I |].
  exists t; split; [exact E|]. split.
  - cbn in S. rewrite S. vm_compute. reflexivity.
  - rewrite P. vm_compute. reflexivity.
Defined.

(** ** C9: the evaluator on fewer than five cards *)

Lemma insert_desc_nonempty r l : insert_desc r l <> [].
Proof.
  intro H. destruct l as [|x l]; [discriminate H|].
  change (insert_desc r (x :: l)) with
    (if (rank_val x <? rank_val r)%nat then r :: x :: l else x :: insert_desc r l) in H.
  destruct (rank_val x <? rank_val r)%nat; discriminate H.
Qed.

Lemma partial_scan_inv rc p t h p' t' h' :
  partial_scan rc p t h = inr (p', t', h') ->
  (t' = true -> t = true \/ find_count 3 rc <> None)
  /\ (h' = None -> h = None /\ p' = p).
Proof.
  revert p t h; induction rc as [|[r c] rc IH]; intros p t h H; cbn in H.
  - injection H as <- <- <-. split; auto.
  - destruct c as [|[|[|[|[|c]]]]];
      try (destruct (IH _ _ _ H) as [T N]; split;
           [intro Ht; destruct (T Ht) as [-> | F]; auto; right; cbn; exact F
           | exact N]; fail).
    + (* a pair *)
      destruct (IH _ _ _ H) as [T N]. split.
      * intro Ht; destruct (T Ht) as [-> | F]; auto; right; cbn; exact F.
      * intro Hn; destruct (N Hn) as [Hh _]. destruct h as [x|]; cbn in Hh;
        [|discriminate Hh].
        match type of Hh with (if ?b then _ else _) = _ => destruct b end; discriminate Hh.
    + (* three of a kind *)
      destruct (IH _ _ _ H) as [_ N]. split; [intros _; right; cbn; discriminate | exact N].
    + discriminate H.
Qed.

Lemma evaluate_partial_some cards : exists e, evaluate_partial cards = Some e.
Proof.
  destruct cards as [|c cs]; [eexists; reflexivity|].
  cbv beta iota zeta delta [evaluate_partial].
  destruct (partial_scan (rank_counts (c :: cs)) 0 false None) as [ev | [[pairs trips] hpr]] eqn:P;
    [eexists; reflexivity|].
  destruct (partial_scan_inv _ _ _ _ _ _ _ P) as [T N].
  destruct trips.
  - destruct (T eq_refl) as [F | F]; [discriminate F|].
    destruct (find_count 3 _); [eexists; reflexivity | contradiction].
  - destruct (Nat.leb 2 pairs); [eexists; reflexivity|].
    destruct (Nat.eqb pairs 1) eqn:P1.
    + destruct hpr; [eexists; reflexivity|].
      destruct (N eq_refl) as [_ ->]. discriminate P1.
    + destruct (sort_desc (map rank (c :: cs))) eqn:S.
      * exfalso; cbn in S; eapply insert_desc_nonempty; exact S.
      * eexists; reflexivity.
Qed.

(** C9.  With no cards at all the evaluator returns High Card with no
    kickers, and on any input of fewer than five cards it returns the
    partial estimate [evaluate_partial] and never fails. *)
Theorem evaluator_total_small :
  evaluate_hand [] [] = Some (mkEval HighCard [])
  /\ forall hole board, (length (hole ++ board) < 5)%nat ->
     exists e, evaluate_hand hole board = Some e /\ evaluate_partial (hole ++ board) = Some e.
Proof.
  split; [reflexivity|].
  intros hole board Hl. unfold evaluate_hand.
  rewrite (proj2 (Nat.ltb_lt _ _) Hl).
  destruct (evaluate_partial_some (hole ++ board)) as [e E]. exists e; auto.
Qed.

Lemma evaluator_total_small_witness :
  evaluate_hand [mkCard King Spades; mkCard King Hearts] [mkCard Two Clubs]
    = Some (mkEval Pair [King]).
Proof.
  destruct (proj2 evaluator_total_small
              [mkCard King Spades; mkCard King Hearts] [mkCard Two Clubs])
    as (e & E & P); [cbn; lia|].
  rewrite E. vm_compute in P. symmetry; exact P.
Defined.

(** ** C6: the wheel *)

Lemma check_straight_none r : check_straight r = None -> check_straight_ace_high r = None.
Proof.
  unfold check_straight, check_straight_ace_high.
  destruct (length r <? 5)%nat; auto.
  destruct (_ && _); [discriminate | auto].
Qed.

Lemma evaluate_five_using_indep c1 c2 cards e :
  (forall r, c1 r = None -> c2 r = None) ->
  evaluate_five_using c1 cards = Some e ->
  he_rank e <> Straight -> he_rank e <> StraightFlush ->
  evaluate_five_using c2 cards = Some e.
Proof.
  intros Hc H N1 N2. unfold evaluate_five_using in *. cbv zeta in *.
  destruct (c1 (dedup (sort_desc (map rank cards)))) as [h1|] eqn:C1.
  - destruct (existsb _ _) eqn:F.
    + cbv beta iota in H. injection H as <-. contradiction N2; reflexivity.
    + destruct (c2 (dedup (sort_desc (map rank cards)))) as [h2|] eqn:C2;
      cbv beta iota in H |- *;
      destruct (find_count 4 (rank_counts cards)); try exact H;
      destruct (find_count 3 (rank_counts cards)), (find_count 2 (rank_counts cards));
      try exact H;
      injection H as <-; contradiction N1; reflexivity.
  - rewrite (Hc _ C1). exact H.
Qed.

Lemma rank_val_inj a b : rank_val a = rank_val b -> a = b.
Proof. destruct a, b; cbn; intro H; first [reflexivity | discriminate H]. Qed.

Lemma insert_desc_comm a b m :
  insert_desc a (insert_desc b m) = insert_desc b (insert_desc a m).
Proof.
  induction m as [|x m IH]; cbn -[Nat.ltb].
  - destruct (Nat.ltb_spec (rank_val b) (rank_val a)),
      (Nat.ltb_spec (rank_val a) (rank_val b)); try lia; try reflexivity.
    assert (E : a = b) by (apply rank_val_inj; lia). subst; reflexivity.
  - destruct (Nat.ltb_spec (rank_val x) (rank_val b)),
      (Nat.ltb_spec (rank_val x) (rank_val a)); cbn -[Nat.ltb];
    repeat match goal with
    | |- context [(?u <? ?v)%nat] => destruct (Nat.ltb_spec u v); cbn -[Nat.ltb]
    end; try lia; try reflexivity; try (rewrite IH; reflexivity);
    try (assert (E : a = b) by (apply rank_val_inj; lia); subst; reflexivity).
Qed.

Lemma sort_desc_perm l l' : Permutation l l' -> sort_desc l = sort_desc l'.
Proof.
  induction 1; cbn; try congruence. apply insert_desc_comm.
Qed.

Lemma count_insert_fresh k m :
  ~ In k (map fst m) -> count_insert rank_eqb k m = m ++ [(k, 1%nat)].
Proof.
  induction m as [|[k' c] m IH]; intro N; [reflexivity|].
  cbn [map fst In] in N.
  simpl count_insert. destruct (rank_eqb k k') eqn:E.
  - unfold rank_eqb in E. apply Nat.eqb_eq, rank_val_inj in E. subst. tauto.
  - rewrite IH by tauto. reflexivity.
Qed.

Lemma rank_counts_nodup cards :
  NoDup (map rank cards) -> rank_counts cards = map (fun c => (rank c, 1%nat)) cards.
Proof.
  unfold rank_counts.
  assert (G : forall m, NoDup (map fst m ++ map rank cards) ->
    fold_left (fun m c => count_insert rank_eqb (rank c) m) cards m
    = m ++ map (fun c => (rank c, 1%nat)) cards).
  { induction cards as [|c cards IH]; intros m Hn; cbn; [rewrite app_nil_r; reflexivity|].
    rewrite count_insert_fresh.
    - rewrite IH, <- app_assoc; [reflexivity|].
      rewrite map_app, <- app_assoc. exact Hn.
    - intro I. cbn in Hn. apply NoDup_remove_2 in Hn. apply Hn, in_or_app. left; exact I. }
  intro Hn. apply G. exact Hn.
Qed.

Lemma find_count_ones n cards :
  n <> 1%nat -> find_count n (map (fun c => (rank c, 1%nat)) cards) = None.
Proof.
  intro Hn. induction cards as [|c cards IH]; [reflexivity|].
  simpl map. simpl find_count.
  destruct n as [|[|n]]; [exact IH | lia | exact IH].
Qed.

Lemma five_not_flush c1 c2 c3 c4 c5 :
  ~ (forall c c', In c [c1; c2; c3; c4; c5] -> In c' [c1; c2; c3; c4; c5] -> suit c = suit c') ->
  existsb (fun p => (5 <=? snd p)%nat) (suit_counts [c1; c2; c3; c4; c5]) = false.
Proof.
  destruct c1 as [r1 s1], c2 as [r2 s2], c3 as [r3 s3], c4 as [r4 s4], c5 as [r5 s5].
  destruct s1, s2, s3, s4, s5; intro H; first [reflexivity |
    exfalso; apply H; intros c c' I1 I2; cbn in I1, I2;
    intuition (subst; reflexivity)].
Qed.

Lemma straight_any_order cards target high :
  Permutation (map rank cards) target -> NoDup target -> length target = 5%nat ->
  check_straight (dedup (sort_desc target)) = Some high ->
  ~ (forall c c', In c cards -> In c' cards -> suit c = suit c') ->
  evaluate_five cards = Some (mkEval Straight [high]).
Proof.
  intros HP ND HL HC HS.
  assert (L5 : length cards = 5%nat).
  { rewrite <- HL, <- (Permutation_length HP), length_map. reflexivity. }
  assert (NDc : NoDup (map rank cards)) by (eapply Permutation_NoDup; [symmetry; exact HP | exact ND]).
  unfold evaluate_five, evaluate_five_using. cbv zeta.
  rewrite (sort_desc_perm _ _ HP), HC, (rank_counts_nodup _ NDc),
    !find_count_ones by discriminate.
  destruct cards as [|c1 [|c2 [|c3 [|c4 [|c5 [|? ?]]]]]]; try discriminate L5.
  rewrite (five_not_flush _ _ _ _ _ HS). reflexivity.
Qed.

Lemma combinations_five c1 c2 c3 c4 c5 :
  combinations [c1; c2; c3; c4; c5] 5 = [[c1; c2; c3; c4; c5]].
Proof. reflexivity. Qed.

Lemma straight_any_order_hand hole board target high :
  Permutation (map rank (hole ++ board)) target -> NoDup target -> length target = 5%nat ->
  check_straight (dedup (sort_desc target)) = Some high ->
  ~ (forall c c', In c (hole ++ board) -> In c' (hole ++ board) -> suit c = suit c') ->
  evaluate_hand hole board = Some (mkEval Straight [high]).
Proof.
  intros HP ND HL HC HS.
  pose proof (straight_any_order _ _ _ HP ND HL HC HS) as E.
  assert (L5 : length (hole ++ board) = 5%nat).
  { rewrite <- HL, <- (Permutation_length HP), length_map. reflexivity. }
  unfold evaluate_hand. cbv zeta. revert E L5.
  generalize (hole ++ board). intros l E L5.
  destruct l as [|c1 [|c2 [|c3 [|c4 [|c5 [|? ?]]]]]]; try discriminate L5.
  rewrite combinations_five. cbn [map_opt]. rewrite E. reflexivity.
Qed.

(** C6.  Five cards, in any order, whose ranks are A,2,3,4,5 and whose suits
    are not all the same evaluate to a Straight with kicker Five, and so
    does [evaluate_hand] on any split of them into hole cards and board
    (whose single five-card combination is the cards in their given
    order); 2,3,4,5,6 likewise evaluate to a Straight with kicker Six,
    which compares greater.  For every other category than the straights
    (Straight, and Straight Flush, which is a straight that is also a
    flush) the evaluation is the one obtained with the Ace counted high
    only. *)
Theorem wheel_ordering :
  (forall cards, Permutation (map rank cards) [Ace; Two; Three; Four; Five] ->
     ~ (forall c c', In c cards -> In c' cards -> suit c = suit c') ->
     evaluate_five cards = Some (mkEval Straight [Five])
     /\ forall hole board, hole ++ board = cards ->
        evaluate_hand hole board = Some (mkEval Straight [Five]))
  /\ (forall cards, Permutation (map rank cards) [Two; Three; Four; Five; Six] ->
     ~ (forall c c', In c cards -> In c' cards -> suit c = suit c') ->
     evaluate_five cards = Some (mkEval Straight [Six])
     /\ forall hole board, hole ++ board = cards ->
        evaluate_hand hole board = Some (mkEval Straight [Six]))
  /\ eval_cmp (mkEval Straight [Six]) (mkEval Straight [Five]) = Gt
  /\ (forall cards e, evaluate_five cards = Some e ->
        he_rank e <> Straight -> he_rank e <> StraightFlush ->
        evaluate_five_using check_straight_ace_high cards = Some e).
Proof.
  split; [|split; [|split]].
  - intros cards HP HS. split.
    + apply (straight_any_order _ _ _ HP); [repeat constructor; cbn; intuition discriminate
        | reflexivity | reflexivity | exact HS].
    + intros hole board <-.
      apply (straight_any_order_hand _ _ _ _ HP); [repeat constructor; cbn; intuition discriminate
        | reflexivity | reflexivity | exact HS].
  - intros cards HP HS. split.
    + apply (straight_any_order _ _ _ HP); [repeat constructor; cbn; intuition discriminate
        | reflexivity | reflexivity | exact HS].
    + intros hole board <-.
      apply (straight_any_order_hand _ _ _ _ HP); [repeat constructor; cbn; intuition discriminate
        | reflexivity | reflexivity | exact HS].
  - reflexivity.
  - intros cards e H. apply evaluate_five_using_indep with (c1 := check_straight).
    + exact check_straight_none.
    + exact H.
Qed.

Lemma wheel_ordering_witness :
  evaluate_five [mkCard Five Spades; mkCard Four Hearts; mkCard Three Diamonds;
                 mkCard Two Clubs; mkCard Ace Spades] = Some (mkEval Straight [Five])
  /\ evaluate_hand [mkCard Five Spades; mkCard Four Hearts]
       [mkCard Three Diamonds; mkCard Two Clubs; mkCard Ace Spades]
     = Some (mkEval Straight [Five])
  /\ evaluate_five [mkCard Six Spades; mkCard Five Hearts; mkCard Four Diamonds;
                    mkCard Three Clubs; mkCard Two Spades] = Some (mkEval Straight [Six])
  /\ evaluate_five_using check_straight_ace_high
       [mkCard Ace Spades; mkCard Two Spades; mkCard Three Spades;
        mkCard Four Spades; mkCard Nine Spades]
     = Some (mkEval Flush [Ace; Nine; Four; Three; Two]).
Proof.
  destruct wheel_ordering as (W & S & _ & F).
  assert (NS : forall c1 c2 c3 c4 c5, suit c1 <> suit c2 ->
    ~ (forall c c', In c [c1; c2; c3; c4; c5] -> In c' [c1; c2; c3; c4; c5] -> suit c = suit c')).
  { intros c1 c2 c3 c4 c5 D H. apply D, H; [left | right; left]; reflexivity. }
  destruct (W [mkCard Five Spades; mkCard Four Hearts; mkCard Three Diamonds;
               mkCard Two Clubs; mkCard Ace Spades]) as [W1 W2].
  { apply Permutation_sym, (Permutation_rev [Ace; Two; Three; Four; Five]). }
  { apply NS. discriminate. }
  split; [exact W1|].
  split; [apply W2; reflexivity|].
  split; [apply S|].
  - apply Permutation_sym, (Permutation_rev [Two; Three; Four; Five; Six]).
  - apply NS. discriminate.
  - apply F; [vm_compute; reflexivity | discriminate | discriminate].
Defined.

(** ** C2: best five of up to seven *)

Lemma combinations_S l k :
  combinations l (S k)
  = if (length l <? S k)%nat then [] else comb_walk (fun r => combinations r k) l.
Proof. reflexivity. Qed.

Lemma subseq_length {A : Type} (x l : list A) : subseq x l -> (length x <= length l)%nat.
Proof. induction 1; cbn; lia. Qed.

Lemma comb_walk_in k l x :
  (forall l' y, In y (combinations l' k) <-> subseq y l' /\ length y = k) ->
  In x (comb_walk (fun r => combinations r k) l) <-> subseq x l /\ length x = S k.
Proof.
  intro IHk. induction l as [|c rest IH]; cbn.
  - split; [contradiction|]. intros [Hs Hl]. inversion Hs; subst. discriminate Hl.
  - rewrite in_app_iff, in_map_iff, IH. split.
    + intros [(y & <- & Hy) | [Hs Hl]].
      * apply IHk in Hy. destruct Hy as [Hs Hl]. split; [constructor; exact Hs | cbn; congruence].
      * split; [apply sub_skip; exact Hs | exact Hl].
    + intros [Hs Hl]. inversion Hs; subst.
      * discriminate Hl.
      * left. exists l. split; [reflexivity|]. apply IHk. cbn in Hl. split; [assumption | lia].
      * right. split; assumption.
Qed.

Lemma combinations_in l k x :
  In x (combinations l k) <-> subseq x l /\ length x = k.
Proof.
  revert l x; induction k as [|k IHk]; intros l x.
  - cbn. split.
    + intros [<- | []]. split; [constructor | reflexivity].
    + intros [_ Hl]. destruct x; [left; reflexivity | discriminate Hl].
  - rewrite combinations_S. destruct (length l <? S k)%nat eqn:L.
    + apply Nat.ltb_lt in L. split; [contradiction|].
      intros [Hs Hl]. apply subseq_length in Hs. lia.
    + apply comb_walk_in. exact IHk.
Qed.

Lemma binomial_small n k : (n < k)%nat -> binomial n k = 0%nat.
Proof.
  revert k; induction n as [|n IH]; intros [|k] H; cbn; try lia.
  rewrite !IH by lia. reflexivity.
Qed.

Lemma comb_walk_length k l :
  (forall l', length (combinations l' k) = binomial (length l') k) ->
  length (comb_walk (fun r => combinations r k) l) = binomial (length l) (S k).
Proof.
  intro IHk. induction l as [|c rest IH]; cbn; [reflexivity|].
  rewrite length_app, length_map, IH, IHk. reflexivity.
Qed.

Lemma combinations_length l k : length (combinations l k) = binomial (length l) k.
Proof.
  revert l; induction k as [|k IHk]; intro l.
  - destruct (length l); reflexivity.
  - rewrite combinations_S. destruct (length l <? S k)%nat eqn:L.
    + apply Nat.ltb_lt in L. rewrite binomial_small by exact L. reflexivity.
    + apply comb_walk_length. exact IHk.
Qed.

Lemma binomial_pos n k : (k <= n)%nat -> (0 < binomial n k)%nat.
Proof.
  revert k; induction n as [|n IH]; intros [|k] H; cbn; try lia.
  specialize (IH k). lia.
Qed.

(** The order of evaluations. *)

Lemma hand_rank_val_inj a b : hand_rank_val a = hand_rank_val b -> a = b.
Proof. destruct a, b; cbn; intro H; first [reflexivity | discriminate H]. Qed.

Lemma kickers_cmp_opp a b : kickers_cmp b a = CompOpp (kickers_cmp a b).
Proof.
  revert b; induction a as [|x a IH]; intros [|y b]; cbn; try reflexivity.
  unfold rank_cmp. rewrite (Nat.compare_antisym (rank_val x) (rank_val y)).
  destruct (Nat.compare (rank_val x) (rank_val y)); cbn; auto.
Qed.

Lemma kickers_cmp_eq a b : kickers_cmp a b = Eq -> a = b.
Proof.
  revert b; induction a as [|x a IH]; intros [|y b]; cbn; try discriminate; auto.
  unfold rank_cmp. destruct (Nat.compare_spec (rank_val x) (rank_val y)) as [E|E|E];
    try discriminate. intro H. rewrite (rank_val_inj _ _ E), (IH _ H). reflexivity.
Qed.

Lemma kickers_cmp_trans a b c :
  kickers_cmp a b <> Gt -> kickers_cmp b c <> Gt -> kickers_cmp a c <> Gt.
Proof.
  revert b c; induction a as [|x a IH]; intros [|y b] [|z c]; cbn; auto.
  unfold rank_cmp.
  destruct (Nat.compare_spec (rank_val x) (rank_val y));
    destruct (Nat.compare_spec (rank_val y) (rank_val z));
    destruct (Nat.compare_spec (rank_val x) (rank_val z));
    intros P Q; try congruence; try lia.
  apply (IH b c); assumption.
Qed.

Lemma eval_cmp_opp a b : eval_cmp b a = CompOpp (eval_cmp a b).
Proof.
  unfold eval_cmp.
  rewrite (Nat.compare_antisym (hand_rank_val (he_rank a)) (hand_rank_val (he_rank b))).
  destruct (Nat.compare _ _); cbn; auto using kickers_cmp_opp.
Qed.

Lemma eval_cmp_trans a b c :
  eval_cmp a b <> Gt -> eval_cmp b c <> Gt -> eval_cmp a c <> Gt.
Proof.
  unfold eval_cmp.
  destruct (Nat.compare_spec (hand_rank_val (he_rank a)) (hand_rank_val (he_rank b)));
    destruct (Nat.compare_spec (hand_rank_val (he_rank b)) (hand_rank_val (he_rank c)));
    destruct (Nat.compare_spec (hand_rank_val (he_rank a)) (hand_rank_val (he_rank c)));
    intros P Q; try congruence; try lia.
  apply (kickers_cmp_trans _ _ _ P Q).
Qed.

Lemma eval_cmp_eq a b : eval_cmp a b = Eq -> a = b.
Proof.
  unfold eval_cmp. destruct a as [ra ka], b as [rb kb]; cbn.
  destruct (Nat.compare_spec (hand_rank_val ra) (hand_rank_val rb)) as [E|E|E];
    try discriminate.
  intro H. rewrite (hand_rank_val_inj _ _ E), (kickers_cmp_eq _ _ H). reflexivity.
Qed.

Lemma fold_max_by l : forall acc,
  let r := fold_left max_by_step l acc in
  In r (acc :: l) /\ eval_cmp acc r <> Gt /\ (forall e, In e l -> eval_cmp e r <> Gt).
Proof.
  induction l as [|y l IH]; intros acc; cbn.
  - split; [left; reflexivity|]. split; [|contradiction].
    unfold eval_cmp; rewrite Nat.compare_refl, kickers_cmp_refl; discriminate.
  - destruct (IH (max_by_step acc y)) as (I & A & E).
    unfold max_by_step in *.
    destruct (eval_cmp acc y) eqn:C.
    + split; [destruct I as [<- | I]; [right; left; reflexivity | right; right; exact I]|].
      split; [apply (eval_cmp_trans _ y); [rewrite C; discriminate | exact A]|].
      intros e [<- | H]; auto.
    + split; [destruct I as [<- | I]; [right; left; reflexivity | right; right; exact I]|].
      split; [apply (eval_cmp_trans _ y); [rewrite C; discriminate | exact A]|].
      intros e [<- | H]; auto.
    + split; [destruct I as [<- | I]; [left; reflexivity | right; right; exact I]|].
      split; [exact A|].
      intros e [<- | H]; auto.
      apply (eval_cmp_trans _ acc); [|exact A].
      rewrite eval_cmp_opp, C. discriminate.
Qed.

(** No [unwrap] or index of [evaluate_five] fails on a non-empty hand. *)

Lemma insert_desc_length r l : length (insert_desc r l) = S (length l).
Proof.
  induction l as [|x l IH]; [reflexivity|].
  change (length (if (rank_val x <? rank_val r)%nat then r :: x :: l else x :: insert_desc r l)
          = S (length (x :: l))).
  destruct (rank_val x <? rank_val r)%nat; [reflexivity|].
  change (S (length (insert_desc r l)) = S (S (length l))). rewrite IH. reflexivity.
Qed.

Lemma sort_desc_length l : length (sort_desc l) = length l.
Proof. induction l as [|x l IH]; cbn; [reflexivity|]. rewrite insert_desc_length; congruence. Qed.

Lemma dedup_nonempty l : l <> [] -> dedup l <> [].
Proof.
  induction l as [|x l IH]; intro H; [contradiction H; reflexivity|].
  destruct l as [|y l]; cbn; [discriminate|].
  destruct (rank_eqb x y); [apply IH; discriminate | discriminate].
Qed.

Lemma evaluate_five_some cards : cards <> [] -> exists e, evaluate_five cards = Some e.
Proof.
  intro Hc. unfold evaluate_five, evaluate_five_using. cbv zeta.
  assert (R : dedup (sort_desc (map rank cards)) <> []).
  { apply dedup_nonempty. intro E. apply (f_equal (@length Rank)) in E.
    rewrite sort_desc_length, length_map in E.
    destruct cards; [exfalso; apply Hc; reflexivity|]; cbn in E; discriminate E. }
  destruct cards as [|c cs]; [exfalso; apply Hc; reflexivity|].
  set (fl := existsb _ (suit_counts (c :: cs))).
  set (ranks := dedup (sort_desc (map rank (c :: cs)))) in *.
  set (rc := rank_counts (c :: cs)).
  set (pairs := map fst (filter _ rc)).
  clearbody fl ranks rc pairs.
  destruct ranks as [|r0 rs]; [exfalso; apply R; reflexivity|].
  destruct (if fl then _ else None); [eexists; reflexivity|].
  destruct (find_count 4 rc); [eexists; reflexivity|].
  destruct (find_count 3 rc), (find_count 2 rc), fl; try (eexists; reflexivity);
  destruct (check_straight (r0 :: rs)); try (eexists; reflexivity);
  (destruct (Nat.leb 2 (length pairs)) eqn:P2;
   [| destruct (Nat.eqb (length pairs) 1) eqn:P1;
      [destruct pairs; [discriminate P1 | eexists; reflexivity] | eexists; reflexivity]]);
  pose proof (sort_desc_length pairs) as SL;
  apply Nat.leb_le in P2;
  destruct (sort_desc pairs) as [|a [|b l]]; cbn in SL; try lia; eexists; reflexivity.
Qed.

Lemma map_opt_Forall2 {A B : Type} (f : A -> option B) l ys :
  map_opt f l = Some ys -> Forall2 (fun x y => f x = Some y) l ys.
Proof.
  revert ys; induction l as [|x l IH]; intros ys H; cbn in H.
  - injection H as <-. constructor.
  - destruct (f x) eqn:F; [|discriminate H].
    destruct (map_opt f l) eqn:M; [|discriminate H].
    injection H as <-. constructor; auto.
Qed.

Lemma map_opt_some {A B : Type} (f : A -> option B) l :
  (forall x, In x l -> exists y, f x = Some y) -> exists ys, map_opt f l = Some ys.
Proof.
  induction l as [|x l IH]; intro H; cbn; [eexists; reflexivity|].
  destruct (H x (or_introl eq_refl)) as [y ->].
  destruct IH as [ys ->]; [intros; apply H; right; assumption|].
  eexists; reflexivity.
Qed.

(** C2.  For a combined hand of at least five cards, [combinations] lists
    exactly the five-card subsets of the combined cards (as index subsets,
    [binomial n 5] of them: 21 for seven cards, 1 for five), each of them
    has a full evaluation, and [evaluate_hand] returns the maximum of these
    evaluations under the (category, kickers) order: one of them, at least
    every other, and the only one with that property. *)
Theorem evaluate_hand_is_max hole board :
  (5 <= length (hole ++ board))%nat ->
  (forall x, In x (combinations (hole ++ board) 5)
             <-> subseq x (hole ++ board) /\ length x = 5%nat)
  /\ length (combinations (hole ++ board) 5) = binomial (length (hole ++ board)) 5
  /\ exists evals m,
       Forall2 (fun c e => evaluate_five c = Some e) (combinations (hole ++ board) 5) evals
       /\ evaluate_hand hole board = Some m
       /\ In m evals
       /\ (forall e, In e evals -> eval_cmp e m <> Gt)
       /\ (forall m', In m' evals -> (forall e, In e evals -> eval_cmp e m' <> Gt) -> m' = m).
Proof.
  intro H5.
  split; [intro x; apply combinations_in|].
  split; [apply combinations_length|].
  destruct (map_opt_some evaluate_five (combinations (hole ++ board) 5)) as [evals E].
  { intros x Hx. apply combinations_in in Hx. destruct Hx as [_ Hl].
    apply evaluate_five_some. intro Hn; subst x; discriminate Hl. }
  pose proof (map_opt_Forall2 _ _ _ E) as F.
  destruct evals as [|x xs].
  { exfalso. apply Forall2_length in F. rewrite combinations_length in F.
    pose proof (binomial_pos (length (hole ++ board)) 5 H5). cbn in F. lia. }
  destruct (fold_max_by xs x) as (I & A & Ex).
  set (m := fold_left max_by_step xs x) in *.
  assert (Top : forall e, In e (x :: xs) -> eval_cmp e m <> Gt)
    by (intros e [<- | He]; auto).
  exists (x :: xs), m.
  split; [exact F|].
  split.
  { unfold evaluate_hand. cbv zeta.
    rewrite (proj2 (Nat.ltb_ge _ _) H5), E. reflexivity. }
  split; [exact I|].
  split; [exact Top|].
  intros m' Hm' Top'.
  apply eval_cmp_eq.
  pose proof (Top' m I) as C1. pose proof (Top m' Hm') as C2.
  rewrite eval_cmp_opp in C1.
  destruct (eval_cmp m' m); cbn in C1; congruence.
Qed.

Lemma evaluate_hand_is_max_witness :
  length (combinations (seven_hole ++ seven_board) 5) = 21%nat
  /\ evaluate_hand seven_hole seven_board = Some (mkEval StraightFlush [Ace]).
Proof.
  destruct (evaluate_hand_is_max seven_hole seven_board)
    as (_ & L & evals & m & _ & Ev & _); [vm_compute; lia|].
  split.
  - rewrite L. vm_compute. reflexivity.
  - rewrite Ev. vm_compute in Ev. symmetry; exact Ev.
Defined.

(** ** Further properties of the game, the deck, the evaluator and the input handling *)

Lemma record_action_same s p a s' : record_action s p a = Some s' -> same_hand s s'.
Proof. unfold record_action, same_hand; intro H; inv_opt; cbn; repeat split. Qed.

Lemma add_chips_same s p a s' : add_chips s p a = Some s' -> same_hand s s'.
Proof. unfold add_chips, same_hand; destruct p; intro H; inv_opt; cbn; repeat split. Qed.

Lemma street_effect_same s p a s' : street_effect s p a = Some s' -> same_hand s s'.
Proof.
  destruct a; cbn; intro H; inv_opt;
    try (unfold same_hand; repeat split; fail);
    try (apply add_chips_same in H; exact H).
  - unfold apply_bet_or_raise in H; inv_opt. apply add_chips_same in E0.
    unfold same_hand in *; cbn; tauto.
  - unfold apply_bet_or_raise in H; inv_opt. apply add_chips_same in E0.
    unfold same_hand in *; cbn; tauto.
  - unfold apply_all_in in H; inv_opt. apply add_chips_same in E0.
    destruct (max_bet s <? amount); inv_opt; unfold same_hand in *; cbn; tauto.
Qed.

Lemma handle_fold_hand s p s' :
  handle_fold s p = Some s' ->
  phase s' = HandComplete /\ deck s' = deck s /\ player_cards s' = player_cards s
  /\ bot_cards s' = bot_cards s /\ board s' = board s /\ button s' = button s
  /\ hand_number s' = hand_number s /\ hands_played s' = hands_played s + 1
  /\ hands_won s' = hands_won s + (match p with Bot => 1 | Human => 0 end).
Proof.
  unfold handle_fold; destruct p; cbn; intro H; inv_opt; arith_facts;
    repeat match goal with
    | H : context [if ?b then _ else _] |- _ => destruct b
    end; inv_opt; cbn; repeat split; lia.
Qed.
Lemma resolve_showdown_hand s s' :
  resolve_showdown s = Some s' ->
  phase s' = Showdown /\ deck s' = deck s /\ player_cards s' = player_cards s
  /\ bot_cards s' = bot_cards s /\ board s' = board s /\ button s' = button s
  /\ hand_number s' = hand_number s /\ hands_played s' = hands_played s + 1
  /\ hands_won s <= hands_won s' <= hands_won s + 1.
Proof.
  unfold resolve_showdown; cbn; intro H.
  split_matches; cbn; repeat split; lia.
Qed.

Lemma advance_phase_counters s s' :
  is_street (phase s) = true -> advance_phase s = Some s' ->
  (is_street (phase s') = true /\ hand_number s' = hand_number s
   /\ hands_played s' = hands_played s /\ hands_won s' = hands_won s)
  \/ (phase s' = Showdown /\ hand_number s' = hand_number s
      /\ hands_played s' = hands_played s + 1
      /\ hands_won s <= hands_won s' <= hands_won s + 1).
Proof.
  unfold advance_phase; intros Hst H; cbn in H.
  destruct (phase s) eqn:Ph; try discriminate Hst;
    try (destruct (deal_n _ _) eqn:?; inv_opt; left; cbn; repeat split; fail).
  apply resolve_showdown_hand in H; cbn in H. right; tauto.
Qed.

Lemma apply_action_counters s p a s' :
  is_street (phase s) = true -> counters_inv s ->
  apply_action s p a = Some s' -> counters_inv s'.
Proof.
  intros Hst (I1 & I2 & I3 & I4 & I5) H. unfold apply_action in H. inv_opt.
  pose proof (record_action_same _ _ _ _ E) as (R1 & R2 & R3 & R4 & R5 & R6 & R7 & R8 & R9).
  specialize (I3 Hst).
  destruct a.
  { apply handle_fold_hand in H. destruct H as (F1 & _ & _ & _ & _ & _ & F7 & F8 & F9).
    unfold counters_inv; rewrite F1, F7, F8, F9.
    split; [destruct p; lia|].
    split; [discriminate|].
    split; [discriminate|].
    split; [intros; lia|].
    left; lia. }
  all: inv_opt;
    pose proof (street_effect_same _ _ _ _ E0) as (S1 & S2 & S3 & S4 & S5 & S6 & S7 & S8 & S9);
    unfold finish_action in H;
    destruct (is_betting_round_complete g0);
    [ assert (Hst0 : is_street (phase g0) = true) by congruence;
      destruct (advance_phase_counters _ _ Hst0 H) as [(A1 & A2 & A3 & A4) | (A1 & A2 & A3 & A4)];
      unfold counters_inv;
      [ rewrite A2, A3, A4; split; [lia|]; split; [intro Hp; rewrite Hp in A1; discriminate|];
        split; [intros; lia|]; split; [intros [Hp|Hp]; rewrite Hp in A1; discriminate|]; right; lia
      | rewrite A1, A2, A3; split; [lia|]; split; [discriminate|]; split; [discriminate|];
        split; [intros; lia|]; left; lia ]
    | inv_opt; unfold counters_inv; cbn;
      rewrite S1, S7, S8, S9, R1, R7, R8, R9;
      split; [lia|]; split; [congruence|]; split; [intros; lia|];
      split; [intros [Hp|Hp]; rewrite Hp in Hst; discriminate|]; right; lia ].
Qed.

Lemma start_new_hand_hand s shuffled s' :
  start_new_hand s shuffled = Some s' ->
  phase s' = Preflop /\ hand_number s' = hand_number s + 1
  /\ hands_played s' = hands_played s /\ hands_won s' = hands_won s.
Proof.
  unfold start_new_hand; intro H; inv_opt; arith_facts.
  cbn in H; destruct (button s); cbn in H; inv_opt; cbn; repeat split; lia.
Qed.

Lemma session_step_counters s s' : counters_inv s -> session_step s s' -> counters_inv s'.
Proof.
  intros I Hs; destruct Hs as [s p a s' Hst H | s sh s' Hph H | s].
  - exact (apply_action_counters s p a s' Hst I H).
  - destruct I as (I1 & I2 & I3 & I4 & I5).
    apply start_new_hand_hand in H; destruct H as (N1 & N2 & N3 & N4).
    specialize (I4 Hph).
    unfold counters_inv; rewrite N1, N2, N3, N4.
    split; [lia|]; split; [discriminate|]; split; [intros; lia|];
    split; [intros [Hp|Hp]; discriminate|]; right; lia.
  - destruct I as (I1 & I2 & I3 & I4 & I5).
    unfold counters_inv; cbn. repeat split; try discriminate; auto; intros [Hp|Hp]; discriminate.
Qed.

(** Session counters: in every state reachable from [GameState::new] the
    hands won never exceed the hands played, which never exceed the hand
    number, and the hand number is ahead of the hands played by exactly one
    while a hand is being bet and equal to it once the hand is settled. *)
Theorem session_hand_counters n shuffled s0 s :
  GameState_new n shuffled = Some s0 -> reachable s0 s ->
  hands_won s <= hands_played s <= hand_number s /\ hand_number s <= hands_played s + 1
  /\ phase s <> Summary
  /\ (is_street (phase s) = true -> hand_number s = hands_played s + 1)
  /\ ((phase s = HandComplete \/ phase s = Showdown) -> hand_number s = hands_played s).
Proof.
  intros H0 R.
  assert (I : counters_inv s).
  { induction R as [|s s' R IH St].
    - unfold GameState_new in H0; inv_opt.
      apply start_new_hand_hand in H0; destruct H0 as (N1 & N2 & N3 & N4).
      unfold counters_inv; rewrite N1, N2, N3, N4; cbn.
      repeat split; try discriminate; try lia. intros [Hp|Hp]; discriminate.
    - exact (session_step_counters _ _ IH St). }
  destruct I as (I1 & I2 & I3 & I4 & I5).
  repeat split; auto; lia.
Qed.

Lemma skipn_nth_error {A} (l : list A) i c :
  nth_error l i = Some c -> skipn i l = c :: skipn (S i) l.
Proof.
  revert i; induction l as [|x l IH]; intros [|i] H; cbn in *; try discriminate.
  - injection H as ->; reflexivity.
  - apply IH; exact H.
Qed.

Lemma deal_n_S d n :
  deal_n d (S n) =
  let (oc, d1) := deal d in
  let (cs, d2) := deal_n d1 n in
  (match oc with Some c => c :: cs | None => cs end, d2).
Proof. reflexivity. Qed.

Lemma deal_n_spec d n :
  deal_n d n =
  (firstn n (skipn (deck_index d) (deck_cards d)),
   mkDeck (deck_cards d)
     (deck_index d + length (firstn n (skipn (deck_index d) (deck_cards d))))%nat).
Proof.
  revert d; induction n as [|n IH]; intros [cs i].
  - cbn. rewrite Nat.add_0_r. reflexivity.
  - rewrite deal_n_S. unfold deal; cbn [deck_cards deck_index].
    destruct (nth_error cs i) as [c|] eqn:E.
    + rewrite IH; cbn [deck_cards deck_index].
      rewrite (skipn_nth_error cs i c E). cbn. f_equal. f_equal. lia.
    + rewrite IH; cbn [deck_cards deck_index].
      apply nth_error_None in E.
      rewrite (skipn_all2 cs E). rewrite firstn_nil. cbn. rewrite Nat.add_0_r. reflexivity.
Qed.

Lemma NoDup_firstn' {A} (n : nat) (l : list A) : NoDup l -> NoDup (firstn n l).
Proof.
  intro H. rewrite <- (firstn_skipn n l) in H. exact (NoDup_app_remove_r _ _ H).
Qed.

Lemma Deck_new_NoDup : NoDup Deck_new_cards.
Proof.
  unfold Deck_new_cards; cbn.
  repeat constructor; cbn; intuition discriminate.
Qed.

Lemma Deck_new_complete c : In c Deck_new_cards.
Proof.
  destruct c as [r st]; destruct r, st; cbn; tauto.
Qed.

Lemma firstn_add {A} (n m : nat) (l : list A) :
  firstn (n + m) l = firstn n l ++ firstn m (skipn n l).
Proof.
  revert l; induction n as [|n IH]; intros [|x l]; cbn; auto.
  - rewrite firstn_nil; reflexivity.
  - rewrite IH; reflexivity.
Qed.

Lemma Deck_new_length : length Deck_new_cards = 52%nat.
Proof. reflexivity. Qed.

Lemma advance_phase_deal s s' :
  is_street (phase s) = true -> advance_phase s = Some s' ->
  (exists k cs, deal_n (deck s) k = (cs, deck s') /\ board s' = board s ++ cs
     /\ player_cards s' = player_cards s /\ bot_cards s' = bot_cards s
     /\ ((phase s = Preflop /\ k = 3%nat /\ phase s' = Flop)
         \/ (phase s = Flop /\ k = 1%nat /\ phase s' = Turn)
         \/ (phase s = Turn /\ k = 1%nat /\ phase s' = River)))
  \/ (phase s = River /\ phase s' = Showdown /\ deck s' = deck s
      /\ player_cards s' = player_cards s /\ bot_cards s' = bot_cards s
      /\ board s' = board s).
Proof.
  unfold advance_phase; intros Hst H; cbn in H.
  destruct (phase s) eqn:Ph; try discriminate Hst;
    try (destruct (deal_n _ _) as [cs d] eqn:Ed; inv_opt; left;
         eexists _, cs; cbn; repeat split; [exact Ed| tauto]).
  apply resolve_showdown_hand in H; cbn in H. right; tauto.
Qed.

Lemma deal_inv_advance s s' :
  deal_inv s -> is_street (phase s) = true -> advance_phase s = Some s' -> deal_inv s'.
Proof.
  intros (D1 & D2 & D3 & D4 & D5 & D6 & D7 & D8) Hst H.
  destruct (advance_phase_deal s s' Hst H) as
    [(k & cs & E & B & P & Q & Ph) | (Ph & Ph' & Dk & P & Q & B)].
  - rewrite deal_n_spec in E. injection E as Ecs Ed.
    destruct (deck s) as [C idx] eqn:Hd; cbn in *.
    assert (Hlen : length C = 52%nat) by (rewrite (Permutation_length D1); reflexivity).
    assert (Hk : (k <= 1 \/ k = 3)%nat /\ (length (board s) + k <= 5)%nat).
    { destruct Ph as [(A & K & _) | [(A & K & _) | (A & K & _)]]; subst k;
        rewrite A in D8; specialize (D8 _ eq_refl); lia. }
    assert (Lcs : length cs = k).
    { subst cs. rewrite length_firstn, length_skipn. lia. }
    rewrite Ecs in Ed. unfold deal_inv; rewrite <- Ed; cbn [deck_cards deck_index].
    rewrite B, P, Q, Lcs, length_app.
    split; [exact D1|].
    split; [rewrite app_assoc, app_assoc, <- (app_assoc (player_cards s)), D2, <- Ecs, <- firstn_add; reflexivity|].
    split; [lia|].
    split; [exact D4|]. split; [exact D5|].
    split; [destruct Ph as [(_ & _ & A) | [(_ & _ & A) | (_ & _ & A)]]; rewrite A; discriminate|].
    split; [lia|].
    intros k' Hk'.
    destruct Ph as [(A & K & A') | [(A & K & A') | (A & K & A')]];
      rewrite A' in Hk'; rewrite A in D8; specialize (D8 _ eq_refl);
      injection Hk' as <-; lia.
  - unfold deal_inv. rewrite Dk, P, Q, B, Ph'.
    rewrite Ph in D8. specialize (D8 _ eq_refl).
    split; [exact D1|]. split; [exact D2|]. split; [exact D3|]. split; [exact D4|]. split; [exact D5|]. split; [discriminate|]. split.
    + lia.
    + intros k Hk; injection Hk as <-; exact D8.
Qed.

Lemma start_new_hand_deal s sh s' :
  start_new_hand s sh = Some s' ->
  exists d1, deal_n (mkDeck sh 0) 2 = (player_cards s', d1)
    /\ deal_n d1 2 = (bot_cards s', deck s') /\ board s' = [] /\ phase s' = Preflop.
Proof.
  unfold start_new_hand; intro H; inv_opt. cbn in H.
  cbn in H; destruct (button s); cbn in H; inv_opt; cbn;
    eexists; (split; [eassumption|]); auto.
Qed.

Lemma deal_inv_new_hand s sh s' :
  Permutation sh Deck_new_cards -> start_new_hand s sh = Some s' -> deal_inv s'.
Proof.
  intros Hp H. destruct (start_new_hand_deal _ _ _ H) as (d1 & E1 & E2 & B & Ph).
  assert (Hlen : length sh = 52%nat) by (rewrite (Permutation_length Hp); reflexivity).
  rewrite deal_n_spec in E1; cbn [deck_cards deck_index skipn] in E1.
  apply pair_equal_spec in E1; destruct E1 as [P1 Ed1].
  assert (L1 : length (firstn 2 sh) = 2%nat) by (rewrite length_firstn; lia).
  rewrite L1 in Ed1. change (0 + 2)%nat with 2%nat in Ed1. rewrite <- Ed1 in E2.
  rewrite deal_n_spec in E2; cbn [deck_cards deck_index] in E2. apply pair_equal_spec in E2; destruct E2 as [P2 Ed2].
  assert (L2 : length (firstn 2 (skipn 2 sh)) = 2%nat)
    by (rewrite length_firstn, length_skipn; lia).
  rewrite L2 in Ed2.
  unfold deal_inv; rewrite <- Ed2, B, Ph, <- P1, <- P2; cbn [deck_cards deck_index].
  split; [exact Hp|].
  split; [rewrite app_nil_r, <- (firstn_add 2 2); reflexivity|].
  split; [reflexivity|].
  split; [exact L1|]. split; [exact L2|].
  split; [discriminate|]. split; [cbn; lia|].
  intros k Hk; injection Hk as <-; reflexivity.
Qed.

Lemma deal_inv_action s p a s' :
  deal_inv s -> is_street (phase s) = true -> apply_action s p a = Some s' -> deal_inv s'.
Proof.
  intros I Hst H. unfold apply_action in H. inv_opt.
  pose proof (record_action_same _ _ _ _ E) as (R1 & R2 & R3 & R4 & R5 & R6 & _).
  assert (Ig : deal_inv g).
  { destruct I as (D1 & D2 & D3 & D4 & D5 & D6 & D7 & D8).
    unfold deal_inv; rewrite R1, R2, R3, R4, R5; repeat split; auto. }
  destruct a.
  { apply handle_fold_hand in H. destruct H as (F1 & F2 & F3 & F4 & F5 & _).
    destruct Ig as (D1 & D2 & D3 & D4 & D5 & D6 & D7 & D8).
    unfold deal_inv; rewrite F1, F2, F3, F4, F5.
    repeat split; auto; try discriminate. }
  all: inv_opt;
    pose proof (street_effect_same _ _ _ _ E0) as (S1 & S2 & S3 & S4 & S5 & S6 & _);
    assert (Ig0 : deal_inv g0) by
      (destruct Ig as (D1 & D2 & D3 & D4 & D5 & D6 & D7 & D8);
       unfold deal_inv; rewrite S1, S2, S3, S4, S5; repeat split; auto);
    unfold finish_action in H;
    destruct (is_betting_round_complete g0);
    [ apply (deal_inv_advance g0); auto; congruence
    | inv_opt; destruct Ig0 as (D1 & D2 & D3 & D4 & D5 & D6 & D7 & D8);
      unfold deal_inv; cbn; repeat split; auto ].
Qed.

Lemma fair_step_deal_inv s s' : deal_inv s -> fair_step s s' -> deal_inv s'.
Proof.
  intros I St; destruct St as [s p a s' Hst H | s sh s' Hph Hp H | s].
  - exact (deal_inv_action s p a s' I Hst H).
  - exact (deal_inv_new_hand s sh s' Hp H).
  - destruct I as (D1 & D2 & D3 & D4 & D5 & D6 & D7 & D8).
    unfold deal_inv; cbn. repeat split; auto; try discriminate.
Qed.

Lemma amount_to_call_max s p : current_bet s p + amount_to_call s p = max_bet s.
Proof.
  unfold amount_to_call. pose proof (current_le_max s p).
  destruct (N.ltb_spec (current_bet s p) (max_bet s)); lia.
Qed.

(** The call offered by [available_actions] ([can_call = Some a]) brings
    the actor's street bet exactly to the highest bet, charges [a] (the
    amount to call) from their stack, leaves them with chips and adds [a]
    to the pot. *)
Theorem offered_call_matches s aa a :
  available_actions s = Some aa -> can_call aa = Some a ->
  pot s + stack_of s (to_act s) <= U32_MAX -> max_bet s <= U32_MAX ->
  exists s', street_effect s (to_act s) (Call a) = Some s'
    /\ a = amount_to_call s (to_act s)
    /\ current_bet s' (to_act s) = max_bet s
    /\ stack_of s' (to_act s) = stack_of s (to_act s) - a
    /\ 0 < stack_of s' (to_act s)
    /\ pot s' = pot s + a.
Proof.
  intros Ha Hc Hp Hm.
  destruct (available_actions_spec _ _ Ha) as (mrt & Hmrt & ->). cbn in Hc.
  destruct ((0 <? amount_to_call s (to_act s)) && (amount_to_call s (to_act s) <? stack_of s (to_act s))) eqn:Hb;
    [|discriminate Hc]. injection Hc as <-.
  apply andb_true_iff in Hb; destruct Hb as [B1 B2].
  apply N.ltb_lt in B1, B2.
  pose proof (amount_to_call_max s (to_act s)) as M.
  set (p := to_act s) in *. set (a := amount_to_call s p) in *.
  assert (Hmin : N.min a (stack_of s p) = a) by lia.
  cbn [street_effect].
  destruct p; unfold add_chips; cbn [stack_of current_bet] in *; rewrite Hmin.
  all: rewrite sub_u32_some, add_u32_some, add_u32_some by lia;
    eexists; split; [reflexivity|]; cbn; repeat split; lia.
Qed.

Lemma add_chips_exact s p x :
  x <= stack_of s p -> current_bet s p + x <= U32_MAX -> pot s + x <= U32_MAX ->
  exists t, add_chips s p x = Some t.
Proof.
  intros H1 H2 H3. assert (Hmin : N.min x (stack_of s p) = x) by lia.
  destruct p; unfold add_chips; cbn [stack_of current_bet] in *; rewrite Hmin;
    rewrite sub_u32_some, add_u32_some, add_u32_some by lia; eexists; reflexivity.
Qed.

Lemma apply_bet_or_raise_some s p r :
  max_bet s <= r -> r - current_bet s p <= stack_of s p -> r <= U32_MAX ->
  pot s + stack_of s p <= U32_MAX ->
  exists t, apply_bet_or_raise s p r = Some t
    /\ current_bet t p = r /\ current_bet t (opponent p) = current_bet s (opponent p)
    /\ stack_of t p = stack_of s p - (r - current_bet s p)
    /\ stack_of t (opponent p) = stack_of s (opponent p)
    /\ pot t = pot s + (r - current_bet s p)
    /\ last_raise_size t = r - max_bet s /\ last_aggressor t = Some p
    /\ phase t = phase s /\ actions_this_street t = actions_this_street s
    /\ last_action t = last_action s /\ button t = button s.
Proof.
  intros H1 H2 H3 H4. pose proof (current_le_max s p) as Hc.
  unfold apply_bet_or_raise. rewrite sub_u32_some by lia.
  destruct (add_chips_exact s p (r - current_bet s p)) as [t Ht]; try lia.
  rewrite Ht. rewrite sub_u32_some by lia.
  destruct (add_chips_bets _ _ _ _ Ht) as (A1 & A2 & A3 & A4 & A5 & A6).
  assert (Hmin : N.min (r - current_bet s p) (stack_of s p) = r - current_bet s p) by lia.
  rewrite Hmin in A1, A3, A5.
  eexists; split; [reflexivity|].
  unfold add_chips in Ht; destruct p; cbn [opponent current_bet stack_of] in *; inv_opt; cbn in *;
    repeat split; lia.
Qed.

Lemma round_open_if_bets_differ t :
  player_bet t <> bot_bet t -> is_betting_round_complete t = false.
Proof.
  intro H. unfold is_betting_round_complete.
  rewrite (proj2 (N.eqb_neq _ _) H). cbn. destruct (_ || _); reflexivity.
Qed.

Lemma record_action_some s p a :
  actions_this_street s < 255 ->
  record_action s p a
  = Some (set_actions_this_street (set_last_action s (Some (p, a))) (actions_this_street s + 1)).
Proof.
  intro H. unfold record_action, inc_u8; cbn.
  rewrite (proj2 (N.leb_le _ _)) by lia. reflexivity.
Qed.

(** The minimum raise offered by [available_actions] ([min_raise = Some r])
    is accepted by [apply_action]: the actor's bet becomes [r], they pay the
    difference and keep chips, the raise size becomes
    [max(last_raise_size, BIG_BLIND)], they become the aggressor and the
    turn passes to the opponent. *)
Theorem offered_min_raise_accepted s aa r :
  available_actions s = Some aa -> min_raise aa = Some r ->
  actions_this_street s < 255 -> pot s + stack_of s (to_act s) <= U32_MAX ->
  exists s', apply_action s (to_act s) (Raise r) = Some s'
    /\ r = max_bet s + N.max (last_raise_size s) BIG_BLIND
    /\ current_bet s' (to_act s) = r
    /\ stack_of s' (to_act s) = stack_of s (to_act s) - (r - current_bet s (to_act s))
    /\ 0 < stack_of s' (to_act s)
    /\ last_raise_size s' = N.max (last_raise_size s) BIG_BLIND
    /\ last_aggressor s' = Some (to_act s)
    /\ to_act s' = opponent (to_act s).
Proof.
  intros Ha Hr Hn Hp.
  destruct (available_actions_spec _ _ Ha) as (mrt & Hmrt & ->). cbn in Hr.
  destruct ((0 <? amount_to_call s (to_act s)) && (mrt <? stack_of s (to_act s))) eqn:Hb;
    [|discriminate Hr]. injection Hr as <-.
  apply andb_true_iff in Hb; destruct Hb as [B1 B2]. apply N.ltb_lt in B1, B2.
  unfold min_raise_to in Hmrt. apply add_u32_ok in Hmrt. destruct Hmrt as [Em Hu].
  set (p := to_act s) in *.
  pose proof (current_le_max s p) as Hc.
  unfold apply_action. rewrite (record_action_some s p (Raise mrt) Hn). cbn [street_effect].
  set (g := set_actions_this_street (set_last_action s (Some (p, Raise mrt))) (actions_this_street s + 1)).
  assert (Gb : forall q, current_bet g q = current_bet s q) by (intros []; reflexivity).
  assert (Gs : forall q, stack_of g q = stack_of s q) by (intros []; reflexivity).
  assert (Gm : max_bet g = max_bet s) by reflexivity.
  assert (Gp : pot g = pot s) by reflexivity.
  destruct (apply_bet_or_raise_some g p mrt) as
      (t & Ht & T1 & T2 & T3 & T4 & T5 & T6 & T7 & _); try rewrite Gb; try rewrite Gs;
    try rewrite Gm; try rewrite Gp; try lia.
  rewrite Ht. unfold finish_action.
  rewrite round_open_if_bets_differ.
  2:{ pose proof (current_le_max s (opponent p)) as Ho. rewrite Gb in T2.
      unfold BIG_BLIND in *; destruct p; cbn [opponent current_bet] in *; lia. }
  eexists; split; [reflexivity|].
  rewrite Gb, Gs, Gm in *.
  cbn [to_act set_to_act].
  assert (Hst : forall q, stack_of (set_to_act t (opponent p)) q = stack_of t q) by (intros []; reflexivity).
  assert (Hcb : forall q, current_bet (set_to_act t (opponent p)) q = current_bet t q) by (intros []; reflexivity).
  rewrite Hst, Hcb. cbn [set_to_act last_raise_size last_aggressor to_act].
  rewrite T6, T7. unfold BIG_BLIND in *.
  repeat split; lia.
Qed.

Lemma is_player_turn_human s : is_player_turn s = true -> to_act s = Human.
Proof. unfold is_player_turn; destruct (to_act s); cbn; auto; discriminate. Qed.

(** The pot-sized shortcuts of [handle_key] ('1' to '4') produce either
    the player's all-in or a bet or raise to at least the highest bet plus
    the pot fraction and the raise floor, and below the all-in amount. *)
Theorem pot_sized_action_bounds s aa rs act :
  is_player_turn s = true -> available_actions s = Some aa ->
  pot_sized_action rs aa (player_bet s) (player_stack s) (amount_to_call s Human) = Some act ->
  act = AllIn (player_bet s + player_stack s)
  \/ exists x, (act = Raise x \/ act = Bet x)
       /\ max_bet s + rs <= x /\ raise_floor aa <= x /\ x < player_bet s + player_stack s.
Proof.
  intros Ht _ H. pose proof (amount_to_call_max s Human) as M; cbn [current_bet] in M.
  unfold pot_sized_action in H. inv_opt. arith_facts.
  destruct (N.leb_spec (player_bet s + player_stack s)
              (N.min (N.max (player_bet s + amount_to_call s Human + rs) (raise_floor aa))
                     (player_bet s + player_stack s))) as [Hle | Hlt].
  - inv_opt. left; reflexivity.
  - right. exists (N.max (player_bet s + amount_to_call s Human + rs) (raise_floor aa)).
    rewrite N.min_l in H by lia.
    split; [destruct (can_call aa); inv_opt; auto|]. lia.
Qed.

(** A typed amount submitted with 'r' or Enter, when the player's bet
    plus stack fits in [u32], becomes the all-in exactly when the amount
    lifted to the raise floor reaches the player's bet plus stack;
    otherwise it becomes a Raise (if there is something to call) or a Bet
    (if not) to the amount lifted to the raise floor. *)
Theorem submit_raise_bounds amount aa pb stack to_call :
  pb + stack <= U32_MAX ->
  (pb + stack <= N.max amount (raise_floor aa) ->
     submit_raise amount aa pb stack to_call = Some (AllIn (pb + stack)))
  /\ (N.max amount (raise_floor aa) < pb + stack -> 0 < to_call ->
     submit_raise amount aa pb stack to_call = Some (Raise (N.max amount (raise_floor aa))))
  /\ (N.max amount (raise_floor aa) < pb + stack -> to_call = 0 ->
     submit_raise amount aa pb stack to_call = Some (Bet (N.max amount (raise_floor aa)))).
Proof.
  intro Hu. unfold submit_raise. rewrite add_u32_some by exact Hu.
  split; [|split]; intro H1.
  - rewrite N.min_r by exact H1. rewrite N.leb_refl. reflexivity.
  - intro H2. rewrite N.min_l by lia.
    rewrite (proj2 (N.leb_gt _ _) H1), (proj2 (N.ltb_lt _ _) H2). reflexivity.
  - intro H2. rewrite N.min_l by lia. subst to_call.
    rewrite (proj2 (N.leb_gt _ _) H1). reflexivity.
Qed.

(** When the player owes chips but no full minimum raise is offered, the
    raise floor of [handle_key] is 2, so a typed amount is lifted only to
    2; an amount below the player's own street bet becomes a Raise that
    [apply_action] rejects (the subtraction [amount - current] underflows). *)
Theorem typed_raise_below_bet_rejected s aa :
  is_player_turn s = true -> available_actions s = Some aa ->
  min_raise aa = None -> 0 < amount_to_call s Human ->
  raise_floor aa = 2
  /\ forall amount, N.max amount 2 < player_bet s ->
     player_bet s + player_stack s <= U32_MAX ->
     submit_raise amount aa (player_bet s) (player_stack s) (amount_to_call s Human)
       = Some (Raise (N.max amount 2))
     /\ apply_action s Human (Raise (N.max amount 2)) = None.
Proof.
  intros Ht Ha Hr Hc. pose proof (is_player_turn_human _ Ht) as Hh.
  destruct (available_actions_spec _ _ Ha) as (mrt & _ & Haa).
  assert (Hf : raise_floor aa = 2).
  { unfold raise_floor. rewrite Hr, Haa, Hh. unfold AvailableActions_new; cbn [min_bet].
    destruct (amount_to_call s Human =? 0) eqn:E; [apply N.eqb_eq in E; lia | reflexivity]. }
  split; [exact Hf|]. intros amount Hlt Hu.
  split.
  - unfold submit_raise. rewrite Hf, add_u32_some by exact Hu.
    rewrite N.min_l by lia.
    rewrite (proj2 (N.leb_gt _ _)) by lia.
    rewrite (proj2 (N.ltb_lt _ _)) by lia. reflexivity.
  - unfold apply_action. destruct (record_action s Human _) as [g|] eqn:E; [|reflexivity].
    pose proof (record_action_fields _ _ _ _ E) as (F1 & _).
    cbn [street_effect]. unfold apply_bet_or_raise. cbn [current_bet].
    unfold sub_u32. rewrite F1, (proj2 (N.leb_gt _ _) Hlt). reflexivity.
Qed.

Lemma current_bet_set_lrs_aggr t n q p :
  current_bet (set_last_raise_size (set_last_aggressor t q) n) p = current_bet t p.
Proof. destruct p; reflexivity. Qed.

(** [projected_bet] of ui/app.rs predicts the street bet that the action
    leaves the actor with. *)
Theorem projected_bet_matches s p a v s' :
  projected_bet s p a = Some v -> street_effect s p a = Some s' -> current_bet s' p = v.
Proof.
  intros Hv H. unfold projected_bet in Hv; cbv zeta in Hv.
  destruct a; cbn [street_effect] in H;
    try (unfold apply_bet_or_raise in H); try (unfold apply_all_in in H);
    inv_opt; arith_facts; try reflexivity;
    try (destruct (add_chips_bets _ _ _ _ H) as (A1 & _); exact A1).
  - destruct (add_chips_bets _ _ _ _ E0) as (A1 & _).
    rewrite current_bet_set_lrs_aggr, A1. reflexivity.
  - destruct (add_chips_bets _ _ _ _ E0) as (A1 & _).
    rewrite current_bet_set_lrs_aggr, A1. reflexivity.
  - destruct (add_chips_bets _ _ _ _ E0) as (A1 & _).
    destruct (max_bet s <? amount); inv_opt; arith_facts;
      try rewrite current_bet_set_lrs_aggr; exact A1.
Qed.

Lemma insert_desc_desc r l : desc_ranks l -> desc_ranks (insert_desc r l).
Proof.
  induction l as [|x l IH]; intro H; [exact I|].
  cbn [insert_desc]. destruct (rank_val x <? rank_val r)%nat eqn:E.
  - apply Nat.ltb_lt in E. split; [lia|]. exact H.
  - apply Nat.ltb_ge in E.
    destruct l as [|y l]; [split; [lia|exact I]|].
    destruct H as [H1 H2].
    specialize (IH H2). cbn [insert_desc] in IH |- *.
    destruct (rank_val y <? rank_val r)%nat eqn:E2.
    + apply Nat.ltb_lt in E2. split; [lia|exact IH].
    + split; [exact H1|exact IH].
Qed.

Lemma sort_desc_desc l : desc_ranks (sort_desc l).
Proof. induction l; cbn; auto using insert_desc_desc. Qed.

Lemma insert_desc_in r l x : In x (insert_desc r l) <-> r = x \/ In x l.
Proof.
  induction l as [|y l IH]; cbn [insert_desc]; [cbn; tauto|].
  destruct (rank_val y <? rank_val r)%nat; cbn [In]; [tauto|]. rewrite IH; tauto.
Qed.

Lemma sort_desc_in l x : In x (sort_desc l) <-> In x l.
Proof.
  induction l as [|y l IH]; cbn; [tauto|]. rewrite insert_desc_in, IH. intuition.
Qed.

Lemma dedup_cons2 a b t :
  dedup (a :: b :: t) = if rank_eqb a b then dedup (b :: t) else a :: dedup (b :: t).
Proof. reflexivity. Qed.

Lemma dedup_in l x : In x (dedup l) -> In x l.
Proof.
  induction l as [|a l IH]; [auto|].
  destruct l as [|b t]; [auto|].
  rewrite dedup_cons2.
  destruct (rank_eqb a b); intro H; [right; apply IH; exact H|].
  destruct H as [H|H]; [left; exact H| right; apply IH; exact H].
Qed.


Lemma dedup_hd l : hd_val (dedup l) = hd_val l.
Proof.
  induction l as [|a l IH]; [reflexivity|].
  destruct l as [|b t]; [reflexivity|].
  rewrite dedup_cons2.
  destruct (rank_eqb a b) eqn:E; [|reflexivity].
  rewrite IH. cbn. unfold rank_eqb in E. apply Nat.eqb_eq in E. rewrite E. reflexivity.
Qed.

Lemma dedup_strict l : desc_ranks l -> strict_desc_ranks (dedup l).
Proof.
  induction l as [|a l IH]; [intros; exact I|].
  destruct l as [|b t]; [intros; exact I|].
  intros [H1 H2]. specialize (IH H2). rewrite dedup_cons2.
  destruct (rank_eqb a b) eqn:E; [exact IH|].
  pose proof (dedup_hd (b :: t)) as Hd.
  change (hd_val (b :: t)) with (Some (rank_val b)) in Hd.
  destruct (dedup (b :: t)) as [|c u] eqn:Ed; [discriminate Hd|].
  cbn in Hd. injection Hd as Hd. split; [|exact IH].
  unfold rank_eqb in E. apply Nat.eqb_neq in E. lia.
Qed.

Lemma straight_window_sound l h :
  strict_desc_ranks l -> straight_window l = Some h ->
  In h l /\ forall i, (i < 5)%nat -> In (rank_val h - i)%nat (map rank_val l).
Proof.
  induction l as [|a l IH]; [discriminate|].
  intros Hs H.
  destruct l as [|b [|c [|d [|e rest]]]]; try discriminate H.
  cbn [straight_window] in H.
  destruct (Z.eqb_spec (Z.of_nat (rank_val a) - Z.of_nat (rank_val e)) 4) as [Q|Q].
  - injection H as <-. cbn in Hs. destruct Hs as (S1 & S2 & S3 & S4 & _).
    split; [left; reflexivity|].
    intros i Hi. cbn.
    destruct i as [|[|[|[|[|i]]]]]; lia.
  - cbn in Hs. destruct Hs as [_ Hs].
    destruct (IH Hs H) as [I1 I2]. split; [right; exact I1|].
    intros i Hi; right; apply I2; exact Hi.
Qed.

Lemma contains_val_in v l : contains_val v l = true -> In v l.
Proof.
  unfold contains_val. intro H. apply existsb_exists in H.
  destruct H as (x & Hx & E). apply Nat.eqb_eq in E. subst; exact Hx.
Qed.

Lemma check_straight_sound l h :
  strict_desc_ranks l -> check_straight l = Some h ->
  forall v, In v (straight_vals h) -> In v (map rank_val l).
Proof.
  intros Hs H. unfold check_straight in H.
  destruct (length l <? 5)%nat; [discriminate H|].
  destruct (contains_val 14 _ && _ && _ && _ && _) eqn:W.
  - injection H as <-. repeat rewrite andb_true_iff in W.
    destruct W as ((((W1 & W2) & W3) & W4) & W5).
    apply contains_val_in in W1, W2, W3, W4, W5.
    intros v Hv; cbn in Hv. intuition (subst; auto).
  - destruct (straight_window_sound l h Hs H) as [_ I].
    assert (Hh : h <> Five).
    { intro E; subst h. pose proof (I 4%nat ltac:(lia)) as I4. cbn in I4.
      apply in_map_iff in I4. destruct I4 as (r & Hr & _). destruct r; discriminate Hr. }
    intros v Hv.
    assert (Hv' : In v (map (fun i => rank_val h - i)%nat [0; 1; 2; 3; 4]%nat))
      by (destruct h; try (exfalso; apply Hh; reflexivity); exact Hv).
    apply in_map_iff in Hv'. destruct Hv' as (i & <- & Hi).
    apply I. cbn in Hi. lia.
Qed.

Lemma evaluate_five_using_straight ck cards e :
  evaluate_five_using ck cards = Some e ->
  he_rank e = Straight \/ he_rank e = StraightFlush ->
  exists h, ck (dedup (sort_desc (map rank cards))) = Some h /\ kickers e = [h].
Proof.
  intros H Hr. unfold evaluate_five_using in H; cbv zeta in H.
  destruct (ck (dedup (sort_desc (map rank cards)))) as [h|] eqn:Ck.
  - exists h; split; [reflexivity|].
    repeat match type of H with
    | context [if ?b then _ else _] => destruct b eqn:?
    | context [match ?x with Some _ => _ | None => _ end] => destruct x eqn:?
    | context [match ?l with [] => _ | _ :: _ => _ end] => destruct l eqn:?
    end; try discriminate H; injection H as <-; cbn in Hr |- *;
      destruct Hr as [Hr|Hr]; try discriminate Hr; try reflexivity.
  - exfalso.
    repeat match type of H with
    | context [if ?b then _ else _] => destruct b eqn:?
    | context [match ?x with Some _ => _ | None => _ end] => destruct x eqn:?
    | context [match ?l with [] => _ | _ :: _ => _ end] => destruct l eqn:?
    end; try discriminate H; injection H as <-; cbn in Hr;
      destruct Hr as [Hr|Hr]; discriminate Hr.
Qed.

(** A Straight or StraightFlush reported by [evaluate_five] has a single
    kicker, its high card, and the five cards contain the five ranks of
    that straight (Ace, 5, 4, 3, 2 for the wheel). *)
Theorem evaluate_five_straight_genuine cards e :
  evaluate_five cards = Some e ->
  he_rank e = Straight \/ he_rank e = StraightFlush ->
  exists h, kickers e = [h]
    /\ forall v, In v (straight_vals h) -> In v (map (fun c => rank_val (rank c)) cards).
Proof.
  intros H Hr. destruct (evaluate_five_using_straight _ _ _ H Hr) as (h & Ck & Hk).
  exists h; split; [exact Hk|].
  intros v Hv.
  pose proof (check_straight_sound _ _ (dedup_strict _ (sort_desc_desc _)) Ck v Hv) as Hin.
  apply in_map_iff in Hin. destruct Hin as (r & <- & Hr1).
  apply dedup_in in Hr1. apply (proj1 (sort_desc_in _ _)) in Hr1.
  apply in_map_iff in Hr1. destruct Hr1 as (c & <- & Hc).
  apply in_map_iff. exists c; split; [reflexivity|exact Hc].
Qed.

Lemma partial_scan_four rc p t h e :
  partial_scan rc p t h = inl e -> e = mkEval FourOfAKind (match kickers e with r :: _ => [r] | [] => [] end)
    /\ he_rank e = FourOfAKind.
Proof.
  revert p t h; induction rc as [|[r c] rc IH]; intros p t h H; cbn in H; [discriminate H|].
  destruct c as [|[|[|[|[|c]]]]]; try (exact (IH _ _ _ H)).
  injection H as <-. split; reflexivity.
Qed.

(** With fewer than five cards, [evaluate_hand] never reports a Straight,
    a Flush, a FullHouse or a StraightFlush, and a TwoPair estimate carries
    exactly one kicker. *)
Theorem few_cards_no_made_hand hole board e :
  (length (hole ++ board) < 5)%nat -> evaluate_hand hole board = Some e ->
  he_rank e <> Straight /\ he_rank e <> Flush /\ he_rank e <> FullHouse
  /\ he_rank e <> StraightFlush
  /\ (he_rank e = TwoPair -> length (kickers e) = 1%nat).
Proof.
  intros Hl H. unfold evaluate_hand in H.
  rewrite (proj2 (Nat.ltb_lt _ _) Hl) in H.
  unfold evaluate_partial in H.
  destruct (hole ++ board) as [|c cs]; [injection H as <-; cbn; repeat split; discriminate|].
  destruct (partial_scan _ 0 false None) as [e'|[[p t] h]] eqn:Ps.
  - injection H as <-. destruct (partial_scan_four _ _ _ _ _ Ps) as [_ R].
    rewrite R; repeat split; discriminate.
  - destruct t.
    + destruct (find_count 3 _); [|discriminate H]. injection H as <-; cbn; repeat split; discriminate.
    + destruct (2 <=? p)%nat eqn:P2.
      * injection H as <-; cbn. repeat split; try discriminate.
        intros _. destruct h as [x|]; [reflexivity|].
        destruct (partial_scan_inv _ _ _ _ _ _ _ Ps) as [_ N].
        destruct (N eq_refl) as [_ Hp]. subst p. discriminate P2.
      * destruct (p =? 1)%nat.
        -- destruct h; [|discriminate H]. injection H as <-; cbn; repeat split; discriminate.
        -- destruct (sort_desc _); [discriminate H|]. injection H as <-; cbn; repeat split; discriminate.
Qed.

(** [start_new_hand] moves the button, gives the button the first action
    preflop, posts the small blind for the button and the big blind for
    the other player (each capped by the stack), puts exactly the blinds in
    the pot and resets the board and the street bookkeeping. *)
Theorem start_new_hand_blinds s sh s' :
  start_new_hand s sh = Some s' ->
  button s' = opponent (button s) /\ to_act s' = button s'
  /\ phase s' = Preflop /\ hand_number s' = hand_number s + 1
  /\ current_bet s' (button s') = N.min SMALL_BLIND (stack_of s (button s'))
  /\ current_bet s' (opponent (button s')) = N.min BIG_BLIND (stack_of s (opponent (button s')))
  /\ (forall q, stack_of s' q = stack_of s q - current_bet s' q)
  /\ pot s' = player_bet s' + bot_bet s'
  /\ board s' = [] /\ last_raise_size s' = BIG_BLIND /\ last_aggressor s' = None
  /\ actions_this_street s' = 0 /\ showdown_result s' = None.
Proof.
  unfold start_new_hand; intro H; inv_opt; arith_facts.
  cbn in H; destruct (button s); cbn in H; inv_opt; arith_facts; cbn;
    (repeat split; try reflexivity; try lia); intros []; cbn; lia.
Qed.

(** A fold ends the hand, empties the pot into the opponent's stack, counts
    the hand as played, and updates the statistics: a bot fold is a hand
    won and may raise the biggest pot won, a human fold may raise the
    biggest pot lost. *)
Theorem fold_statistics s p s' :
  handle_fold s p = Some s' ->
  phase s' = HandComplete /\ pot s' = 0
  /\ hands_played s' = hands_played s + 1
  /\ (p = Bot -> player_stack s' = player_stack s + pot s /\ bot_stack s' = bot_stack s
        /\ hands_won s' = hands_won s + 1
        /\ biggest_pot_won s' = N.max (biggest_pot_won s) (pot s)
        /\ biggest_pot_lost s' = biggest_pot_lost s)
  /\ (p = Human -> bot_stack s' = bot_stack s + pot s /\ player_stack s' = player_stack s
        /\ hands_won s' = hands_won s
        /\ biggest_pot_lost s' = N.max (biggest_pot_lost s) (pot s)
        /\ biggest_pot_won s' = biggest_pot_won s).
Proof.
  unfold handle_fold; destruct p; cbn; intro H; inv_opt; arith_facts;
    repeat match goal with
    | H : context [if ?b then _ else _] |- _ => destruct b eqn:?
    end; inv_opt; arith_facts; cbn;
    repeat match goal with
    | H : (_ <? _) = true |- _ => apply N.ltb_lt in H
    | H : (_ <? _) = false |- _ => apply N.ltb_ge in H
    end;
    (split; [reflexivity|]); (split; [reflexivity|]);
    (split; [lia|]); split; intro Hq; try discriminate Hq; repeat split; lia.
Qed.

(** In every session whose shuffles are permutations of [Deck::new()], the
    dealt cards are distinct, they are the first [4 + |board|] cards of the
    hand's deck in dealing order, each player holds two cards, and the
    board has 0, 3, 4 or 5 cards as the phase requires. *)
Theorem fair_session_cards n shuffled s0 s :
  Permutation shuffled Deck_new_cards ->
  GameState_new n shuffled = Some s0 -> fair_reachable s0 s ->
  NoDup (player_cards s ++ bot_cards s ++ board s)
  /\ Permutation (deck_cards (deck s)) Deck_new_cards
  /\ player_cards s ++ bot_cards s ++ board s
     = firstn (4 + length (board s)) (deck_cards (deck s))
  /\ length (player_cards s) = 2%nat /\ length (bot_cards s) = 2%nat
  /\ (length (board s) <= 5)%nat
  /\ (forall k, board_size (phase s) = Some k -> length (board s) = k).
Proof.
  intros Hp H0 R.
  assert (I : deal_inv s).
  { induction R as [|s s' R IH St].
    - unfold GameState_new in H0; inv_opt. exact (deal_inv_new_hand _ _ _ Hp H0).
    - exact (fair_step_deal_inv _ _ IH St). }
  destruct I as (D1 & D2 & D3 & D4 & D5 & D6 & D7 & D8).
  assert (Nd : NoDup (deck_cards (deck s)))
    by (apply (Permutation_NoDup (Permutation_sym D1)); exact Deck_new_NoDup).
  rewrite <- D3. split; [rewrite D2; exact (NoDup_firstn' _ _ Nd)|].
  split; [exact D1|]. split; [exact D2|]. auto.
Qed.

(** At showdown the stronger evaluation takes the whole pot: its owner's
    stack grows by the pot, the other stack is unchanged, the result names
    the winner, and the human's hands won and biggest pot won (or the
    biggest pot lost) are updated. *)
Theorem showdown_pays_stronger_hand s s' pe be :
  evaluate_hand (player_cards s) (board s) = Some pe ->
  evaluate_hand (bot_cards s) (board s) = Some be ->
  resolve_showdown s = Some s' ->
  (eval_cmp pe be = Gt ->
     player_stack s' = player_stack s + pot s /\ bot_stack s' = bot_stack s
     /\ hands_won s' = hands_won s + 1
     /\ biggest_pot_won s' = N.max (biggest_pot_won s) (pot s)
     /\ option_map winner (showdown_result s') = Some (Some Human))
  /\ (eval_cmp pe be = Lt ->
     bot_stack s' = bot_stack s + pot s /\ player_stack s' = player_stack s
     /\ hands_won s' = hands_won s
     /\ biggest_pot_lost s' = N.max (biggest_pot_lost s) (pot s)
     /\ option_map winner (showdown_result s') = Some (Some Bot)).
Proof.
  intros Hp Hb H. unfold resolve_showdown in H. rewrite Hp, Hb in H.
  unfold eval_cmp.
  destruct (Nat.compare _ _) eqn:C1; [destruct (kickers_cmp _ _) eqn:C2 | |];
    cbn in H; inv_opt; arith_facts;
    repeat match goal with
    | H : context [if ?b then _ else _] |- _ => destruct b eqn:?
    end; inv_opt; arith_facts; cbn;
    (split; intro Hc; try discriminate Hc);
    repeat match goal with
    | H : (_ <? _) = true |- _ => apply N.ltb_lt in H
    | H : (_ <? _) = false |- _ => apply N.ltb_ge in H
    end; repeat split; lia.
Qed.

(** Advancing from Preflop, Flop or Turn deals the next three, one or one
    cards of the deck onto the board, moves the deck index past them, goes
    to the next street and gives the first action to the non-button
    player. *)
Theorem advance_street_deals s s' :
  advance_phase s = Some s' -> phase s = Preflop \/ phase s = Flop \/ phase s = Turn ->
  let k := match phase s with Preflop => 3%nat | _ => 1%nat end in
  let dealt := firstn k (skipn (deck_index (deck s)) (deck_cards (deck s))) in
  board s' = board s ++ dealt
  /\ deck s' = mkDeck (deck_cards (deck s)) (deck_index (deck s) + length dealt)
  /\ phase s' = match phase s with Preflop => Flop | Flop => Turn | _ => River end
  /\ to_act s' = opponent (button s)
  /\ player_cards s' = player_cards s /\ bot_cards s' = bot_cards s.
Proof.
  intros H Hp k dealt. unfold advance_phase in H.
  change (phase (set_actions_this_street (set_last_aggressor (set_bot_bet (set_player_bet s 0) 0) None) 0))
    with (phase s) in H.
  change (deck (set_actions_this_street (set_last_aggressor (set_bot_bet (set_player_bet s 0) 0) None) 0))
    with (deck s) in H.
  subst k dealt.
  destruct Hp as [Hp | [Hp | Hp]]; rewrite Hp in H |- *; cbv beta iota zeta in H;
    rewrite deal_n_spec in H; injection H as <-; cbn;
    repeat (split; [reflexivity|]); reflexivity.
Qed.

(** [Deck::new()] holds the 52 distinct cards of a standard deck. *)
Theorem Deck_new_standard_deck :
  length Deck_new_cards = 52%nat /\ NoDup Deck_new_cards /\ forall c, In c Deck_new_cards.
Proof.
  split; [exact Deck_new_length|]. split; [exact Deck_new_NoDup|]. exact Deck_new_complete.
Qed.

(** [Deck::deal_n] takes the next [n] cards after the deck index, in
    order, and moves the index past them; it deals all [n] when enough
    remain and nothing, leaving the deck as it is, when none remain. *)
Theorem deal_n_takes_next_cards d n cs d' :
  deal_n d n = (cs, d') ->
  cs = firstn n (skipn (deck_index d) (deck_cards d))
  /\ deck_cards d' = deck_cards d
  /\ deck_index d' = (deck_index d + length cs)%nat
  /\ ((deck_index d + n <= length (deck_cards d))%nat -> length cs = n)
  /\ ((length (deck_cards d) <= deck_index d)%nat -> cs = [] /\ d' = d).
Proof.
  intro H. rewrite deal_n_spec in H. apply pair_equal_spec in H; destruct H as [<- <-].
  cbn [deck_cards deck_index].
  split; [reflexivity|]. split; [reflexivity|]. split; [reflexivity|]. split.
  - intro Hl. rewrite length_firstn, length_skipn. lia.
  - intro Hl. rewrite (skipn_all2 _ Hl), firstn_nil. cbn.
    rewrite Nat.add_0_r. destruct d; split; reflexivity.
Qed.

(** The comparison of hand evaluations (category, then kickers) is a total
    order: it is antisymmetric, transitive and equal only on identical
    evaluations. *)
Theorem eval_cmp_total_order a b c :
  eval_cmp b a = CompOpp (eval_cmp a b)
  /\ (eval_cmp a b = Eq <-> a = b)
  /\ (eval_cmp a b <> Gt -> eval_cmp b c <> Gt -> eval_cmp a c <> Gt).
Proof.
  split; [apply eval_cmp_opp|]. split; [split|].
  - apply eval_cmp_eq.
  - intros <-. pose proof (eval_cmp_opp a a) as E. destruct (eval_cmp a a); easy.
  - apply eval_cmp_trans.
Qed.

(** [combinations] lists C(n, k) subsets of the [n] cards, and they are
    exactly the order-preserving selections of [k] cards. *)
Theorem combinations_enumerates l k x :
  length (combinations l k) = binomial (length l) k
  /\ (In x (combinations l k) <-> subseq x l /\ length x = k).
Proof. split; [apply combinations_length | apply combinations_in]. Qed.

(** Running street actions stays within the fair sessions. *)
Lemma run_streets_fair_reachable s0 s l s' :
  fair_reachable s0 s -> run_streets s l = Some s' -> fair_reachable s0 s'.
Proof.
  revert s; induction l as [|[p a] l IH]; cbn; intros s R H.
  - inv_opt; exact R.
  - destruct (is_street (phase s)) eqn:St; [|discriminate H].
    destruct (apply_action s p a) as [t|] eqn:Ha; [|discriminate H].
    apply (IH t); [|exact H]. exact (fair_more _ _ _ R (fair_action _ _ _ _ St Ha)).
Qed.


(** The hypotheses of [start_new_hand_blinds] hold at a concrete input. *)
Lemma start_new_hand_blinds_witness :
  button demo_next = opponent (button demo_end) /\ to_act demo_next = button demo_next
  /\ phase demo_next = Preflop /\ hand_number demo_next = hand_number demo_end + 1
  /\ current_bet demo_next (button demo_next)
     = N.min SMALL_BLIND (stack_of demo_end (button demo_next))
  /\ current_bet demo_next (opponent (button demo_next))
     = N.min BIG_BLIND (stack_of demo_end (opponent (button demo_next)))
  /\ (forall q, stack_of demo_next q = stack_of demo_end q - current_bet demo_next q)
  /\ pot demo_next = player_bet demo_next + bot_bet demo_next
  /\ board demo_next = [] /\ last_raise_size demo_next = BIG_BLIND
  /\ last_aggressor demo_next = None
  /\ actions_this_street demo_next = 0 /\ showdown_result demo_next = None.
Proof. apply (start_new_hand_blinds demo_end Deck_new_cards demo_next). vm_compute; reflexivity. Defined.

(** The hypotheses of [fair_session_cards] hold at a concrete input. *)
Lemma fair_session_cards_witness :
  NoDup (player_cards demo_flop ++ bot_cards demo_flop ++ board demo_flop)
  /\ Permutation (deck_cards (deck demo_flop)) Deck_new_cards
  /\ player_cards demo_flop ++ bot_cards demo_flop ++ board demo_flop
     = firstn (4 + length (board demo_flop)) (deck_cards (deck demo_flop))
  /\ length (player_cards demo_flop) = 2%nat /\ length (bot_cards demo_flop) = 2%nat
  /\ (length (board demo_flop) <= 5)%nat
  /\ (forall k, board_size (phase demo_flop) = Some k -> length (board demo_flop) = k).
Proof.
  apply (fair_session_cards 100 Deck_new_cards demo_start demo_flop).
  - apply Permutation_refl.
  - vm_compute; reflexivity.
  - apply (run_streets_fair_reachable demo_start demo_start [(Human, Raise 30); (Bot, Call 28)]);
      [apply fair_here | vm_compute; reflexivity].
Defined.

(** The hypotheses of [session_hand_counters] hold at a concrete input. *)
Lemma session_hand_counters_witness :
  hands_won demo_next <= hands_played demo_next <= hand_number demo_next
  /\ hand_number demo_next <= hands_played demo_next + 1
  /\ phase demo_next <> Summary
  /\ (is_street (phase demo_next) = true -> hand_number demo_next = hands_played demo_next + 1)
  /\ ((phase demo_next = HandComplete \/ phase demo_next = Showdown)
      -> hand_number demo_next = hands_played demo_next).
Proof.
  apply (session_hand_counters 100 Deck_new_cards demo_start demo_next).
  - vm_compute; reflexivity.
  - apply (reach_step demo_start demo_end demo_next).
    + apply (run_streets_reachable demo_start demo_start demo_actions);
        [apply reach_here | vm_compute; reflexivity].
    + apply (step_new_hand demo_end Deck_new_cards demo_next);
        [left; vm_compute; reflexivity | vm_compute; reflexivity].
Defined.

(** The hypotheses of [showdown_pays_stronger_hand] hold at a concrete input. *)
Lemma showdown_pays_stronger_hand_witness :
  (eval_cmp (mkEval HighCard [King; Queen; Eight; Seven; Six]) (mkEval Straight [Eight]) = Gt ->
     player_stack sd_demo_end = player_stack sd_demo + pot sd_demo
     /\ bot_stack sd_demo_end = bot_stack sd_demo
     /\ hands_won sd_demo_end = hands_won sd_demo + 1
     /\ biggest_pot_won sd_demo_end = N.max (biggest_pot_won sd_demo) (pot sd_demo)
     /\ option_map winner (showdown_result sd_demo_end) = Some (Some Human))
  /\ (eval_cmp (mkEval HighCard [King; Queen; Eight; Seven; Six]) (mkEval Straight [Eight]) = Lt ->
     bot_stack sd_demo_end = bot_stack sd_demo + pot sd_demo
     /\ player_stack sd_demo_end = player_stack sd_demo
     /\ hands_won sd_demo_end = hands_won sd_demo
     /\ biggest_pot_lost sd_demo_end = N.max (biggest_pot_lost sd_demo) (pot sd_demo)
     /\ option_map winner (showdown_result sd_demo_end) = Some (Some Bot)).
Proof.
  apply (showdown_pays_stronger_hand sd_demo sd_demo_end); vm_compute; reflexivity.
Defined.

(** The hypotheses of [fold_statistics] hold at a concrete input. *)
Lemma fold_statistics_witness :
  let s' := run_or (handle_fold demo_bet10 Human) in
  phase s' = HandComplete /\ pot s' = 0
  /\ hands_played s' = hands_played demo_bet10 + 1
  /\ (Human = Bot -> player_stack s' = player_stack demo_bet10 + pot demo_bet10
        /\ bot_stack s' = bot_stack demo_bet10
        /\ hands_won s' = hands_won demo_bet10 + 1
        /\ biggest_pot_won s' = N.max (biggest_pot_won demo_bet10) (pot demo_bet10)
        /\ biggest_pot_lost s' = biggest_pot_lost demo_bet10)
  /\ (Human = Human -> bot_stack s' = bot_stack demo_bet10 + pot demo_bet10
        /\ player_stack s' = player_stack demo_bet10
        /\ hands_won s' = hands_won demo_bet10
        /\ biggest_pot_lost s' = N.max (biggest_pot_lost demo_bet10) (pot demo_bet10)
        /\ biggest_pot_won s' = biggest_pot_won demo_bet10).
Proof. apply (fold_statistics demo_bet10 Human). vm_compute; reflexivity. Defined.

(** The hypotheses of [advance_street_deals] hold at a concrete input. *)
Lemma advance_street_deals_witness :
  board demo_adv = board demo_start ++ firstn 3 (skipn (deck_index (deck demo_start)) (deck_cards (deck demo_start)))
  /\ deck demo_adv = mkDeck (deck_cards (deck demo_start))
       (deck_index (deck demo_start)
        + length (firstn 3 (skipn (deck_index (deck demo_start)) (deck_cards (deck demo_start)))))
  /\ phase demo_adv = Flop
  /\ to_act demo_adv = opponent (button demo_start)
  /\ player_cards demo_adv = player_cards demo_start /\ bot_cards demo_adv = bot_cards demo_start.
Proof.
  apply (advance_street_deals demo_start demo_adv);
    [vm_compute; reflexivity | left; vm_compute; reflexivity].
Defined.

(** The hypotheses of [deal_n_takes_next_cards] hold at a concrete input. *)
Lemma deal_n_takes_next_cards_witness :
  let d := mkDeck Deck_new_cards 4 in
  let cs := fst (deal_n d 3) in let d' := snd (deal_n d 3) in
  cs = firstn 3 (skipn (deck_index d) (deck_cards d))
  /\ deck_cards d' = deck_cards d
  /\ deck_index d' = (deck_index d + length cs)%nat
  /\ ((deck_index d + 3 <= length (deck_cards d))%nat -> length cs = 3%nat)
  /\ ((length (deck_cards d) <= deck_index d)%nat -> cs = [] /\ d' = d).
Proof.
  apply (deal_n_takes_next_cards (mkDeck Deck_new_cards 4) 3). vm_compute; reflexivity.
Defined.

(** The hypotheses of [offered_call_matches] hold at a concrete input. *)
Lemma offered_call_matches_witness :
  exists s', street_effect demo_start (to_act demo_start) (Call 1) = Some s'
    /\ 1 = amount_to_call demo_start (to_act demo_start)
    /\ current_bet s' (to_act demo_start) = max_bet demo_start
    /\ stack_of s' (to_act demo_start) = stack_of demo_start (to_act demo_start) - 1
    /\ 0 < stack_of s' (to_act demo_start)
    /\ pot s' = pot demo_start + 1.
Proof.
  apply (offered_call_matches demo_start (mkAvailable true false (Some 1) None (Some 4) 199) 1);
    vm_compute; try reflexivity; discriminate.
Defined.

(** The hypotheses of [offered_min_raise_accepted] hold at a concrete input. *)
Lemma offered_min_raise_accepted_witness :
  exists s', apply_action demo_start (to_act demo_start) (Raise 4) = Some s'
    /\ 4 = max_bet demo_start + N.max (last_raise_size demo_start) BIG_BLIND
    /\ current_bet s' (to_act demo_start) = 4
    /\ stack_of s' (to_act demo_start)
       = stack_of demo_start (to_act demo_start) - (4 - current_bet demo_start (to_act demo_start))
    /\ 0 < stack_of s' (to_act demo_start)
    /\ last_raise_size s' = N.max (last_raise_size demo_start) BIG_BLIND
    /\ last_aggressor s' = Some (to_act demo_start)
    /\ to_act s' = opponent (to_act demo_start).
Proof.
  apply (offered_min_raise_accepted demo_start (mkAvailable true false (Some 1) None (Some 4) 199) 4);
    vm_compute; try reflexivity; discriminate.
Defined.

(** The hypotheses of [pot_sized_action_bounds] hold at a concrete input. *)
Lemma pot_sized_action_bounds_witness :
  Raise 5 = AllIn (player_bet demo_start + player_stack demo_start)
  \/ exists x, (Raise 5 = Raise x \/ Raise 5 = Bet x)
       /\ max_bet demo_start + 3 <= x
       /\ raise_floor (mkAvailable true false (Some 1) None (Some 4) 199) <= x
       /\ x < player_bet demo_start + player_stack demo_start.
Proof.
  apply (pot_sized_action_bounds demo_start (mkAvailable true false (Some 1) None (Some 4) 199) 3);
    vm_compute; reflexivity.
Defined.

(** The hypotheses of [submit_raise_bounds] hold at a concrete input. *)
Lemma submit_raise_bounds_witness :
  submit_raise 25 (mkAvailable true false (Some 1) None (Some 4) 199) 1 199 1 = Some (Raise 25)
  /\ submit_raise 500 (mkAvailable true false (Some 1) None (Some 4) 199) 1 199 1
     = Some (AllIn 200)
  /\ submit_raise 0 (mkAvailable false true None (Some 2) None 199) 0 199 0 = Some (Bet 2).
Proof.
  split; [|split].
  - apply (submit_raise_bounds 25 (mkAvailable true false (Some 1) None (Some 4) 199) 1 199 1);
      vm_compute; first [reflexivity | discriminate].
  - apply (submit_raise_bounds 500 (mkAvailable true false (Some 1) None (Some 4) 199) 1 199 1);
      vm_compute; first [reflexivity | discriminate].
  - apply (submit_raise_bounds 0 (mkAvailable false true None (Some 2) None 199) 0 199 0);
      vm_compute; first [reflexivity | discriminate].
Defined.

(** The hypotheses of [typed_raise_below_bet_rejected] hold at a concrete input. *)
Lemma typed_raise_below_bet_rejected_witness :
  raise_floor (mkAvailable true false None None None 12) = 2
  /\ submit_raise 5 (mkAvailable true false None None None 12) (player_bet typed_demo)
      (player_stack typed_demo) (amount_to_call typed_demo Human)
    = Some (Raise (N.max 5 2))
  /\ apply_action typed_demo Human (Raise (N.max 5 2)) = None.
Proof.
  destruct (typed_raise_below_bet_rejected typed_demo (mkAvailable true false None None None 12))
    as [F R]; [vm_compute; reflexivity | vm_compute; reflexivity | reflexivity
    | vm_compute; reflexivity |].
  split; [exact F|]. apply R; vm_compute; first [reflexivity | discriminate].
Defined.

(** The hypotheses of [projected_bet_matches] hold at a concrete input. *)
Lemma projected_bet_matches_witness :
  current_bet (run_or (street_effect demo_start Human (Raise 30))) Human = 30.
Proof.
  apply (projected_bet_matches demo_start Human (Raise 30)); vm_compute; reflexivity.
Defined.

(** The hypotheses of [evaluate_five_straight_genuine] hold at a concrete input. *)
Lemma evaluate_five_straight_genuine_witness :
  exists h, kickers (mkEval Straight [Five]) = [h]
    /\ forall v, In v (straight_vals h)
       -> In v (map (fun c => rank_val (rank c))
                  [mkCard Ace Spades; mkCard Two Hearts; mkCard Three Clubs;
                   mkCard Four Diamonds; mkCard Five Spades]).
Proof.
  apply (evaluate_five_straight_genuine
           [mkCard Ace Spades; mkCard Two Hearts; mkCard Three Clubs;
            mkCard Four Diamonds; mkCard Five Spades]);
    [vm_compute; reflexivity | left; reflexivity].
Defined.

(** The hypotheses of [few_cards_no_made_hand] hold at a concrete input. *)
Lemma few_cards_no_made_hand_witness :
  let e := mkEval TwoPair [Nine] in
  he_rank e <> Straight /\ he_rank e <> Flush /\ he_rank e <> FullHouse
  /\ he_rank e <> StraightFlush
  /\ (he_rank e = TwoPair -> length (kickers e) = 1%nat).
Proof.
  apply (few_cards_no_made_hand [mkCard Nine Spades; mkCard Nine Hearts]
           [mkCard Four Clubs; mkCard Four Diamonds]);
    vm_compute; [lia | reflexivity].
Defined.

(** An all-in to the actor's current bet plus stack (what the 'a' key of
    [handle_key] submits) moves the whole stack into the bet and the pot,
    leaves the opponent's stack alone, and counts as an aggressive action
    (aggressor and raise size updated) only when it exceeds the highest
    bet. *)
Theorem all_in_moves_whole_stack s p t :
  street_effect s p (AllIn (current_bet s p + stack_of s p)) = Some t ->
  stack_of t p = 0
  /\ current_bet t p = current_bet s p + stack_of s p
  /\ stack_of t (opponent p) = stack_of s (opponent p)
  /\ pot t = pot s + stack_of s p
  /\ (max_bet s < current_bet s p + stack_of s p ->
        last_aggressor t = Some p
        /\ last_raise_size t = current_bet s p + stack_of s p - max_bet s)
  /\ (current_bet s p + stack_of s p <= max_bet s ->
        last_aggressor t = last_aggressor s /\ last_raise_size t = last_raise_size s).
Proof.
  cbn [street_effect]. intro H. pose proof (apply_all_in_lrs _ _ _ _ H) as L.
  unfold apply_all_in in H.
  rewrite sub_u32_some in H by lia. replace (current_bet s p + stack_of s p - current_bet s p) with (stack_of s p) in H by lia.
  destruct (add_chips s p (stack_of s p)) as [u|] eqn:A; [|discriminate H].
  destruct (add_chips_bets _ _ _ _ A) as (A1 & A2 & A3 & A4 & A5 & _).
  destruct (add_chips_lrs _ _ _ _ A) as [U1 U2].
  rewrite N.min_id in A1, A3, A5.
  destruct (N.ltb_spec (max_bet s) (current_bet s p + stack_of s p)) as [Lt|Ge]; inv_opt;
    destruct p; cbn [stack_of current_bet opponent] in *; cbn;
    repeat split; try lia; try congruence; try (intro; lia); exact L.
Qed.

(** The hypotheses of [all_in_moves_whole_stack] hold at a concrete input. *)
Lemma all_in_moves_whole_stack_witness :
  let t := run_or (street_effect demo_start Human (AllIn (current_bet demo_start Human + stack_of demo_start Human))) in
  stack_of t Human = 0
  /\ current_bet t Human = current_bet demo_start Human + stack_of demo_start Human
  /\ stack_of t (opponent Human) = stack_of demo_start (opponent Human)
  /\ pot t = pot demo_start + stack_of demo_start Human
  /\ (max_bet demo_start < current_bet demo_start Human + stack_of demo_start Human ->
        last_aggressor t = Some Human
        /\ last_raise_size t = current_bet demo_start Human + stack_of demo_start Human - max_bet demo_start)
  /\ (current_bet demo_start Human + stack_of demo_start Human <= max_bet demo_start ->
        last_aggressor t = last_aggressor demo_start /\ last_raise_size t = last_raise_size demo_start).
Proof. apply (all_in_moves_whole_stack demo_start Human). vm_compute; reflexivity. Defined.
